(** * kvdistlead.config: startup configuration of the leader-election service

    A shallow embedding of [src/kvdistlead/config.py] and the properties of
    its configuration resolution.

    Modelling conventions.
    - A Python [str] is a Rocq [string]; each [ascii] is one code point in
      the range 0..255, so the strings covered are those whose code points lie
      below 256.  The [str] methods and the builtins [int] and [float] are
      embedded on that range as CPython 3.11 evaluates them.
    - [os.environ] is a finite map from names to values; [os.getenv] reads it
      and never writes it, so the code runs in a reader monad over the
      environment, combined with an error monad for the raised exceptions.
      The environment is the one the module sees after [load_dotenv] has run
      at import time.
    - An exception is its class and its message; the [__cause__] that
      [raise ... from exc] attaches is left out. [int(raw)] and [float(raw)]
      raise nothing but [ValueError] on a string, so [None] stands for it.
    - The dictionary returned by [get_config] is a finite map from keys to
      Python values ([None], [str], [int], [float], [bool]).
    - A [float] is an IEEE 754 binary64 number, as specified by [spec_float]
      with precision 53 and maximal exponent 1024. *)

From Stdlib Require Import ZArith NArith Ascii String List Lia Bool.
From Stdlib Require Import SpecFloat.
From stdpp Require Import base option list gmap strings.

(** ** Python [str] methods *)

Module PyStr.

(** [ord(c)] *)
Definition ord (c : ascii) : N := N_of_ascii c.

(** [str.isspace] on one character: the Unicode whitespace code points below
    256. [str.strip] without argument removes exactly these. *)
Definition isspace (c : ascii) : bool :=
  let n := ord c in
  ((9 <=? n) && (n <=? 13) || (28 <=? n) && (n <=? 32) || (n =? 133) || (n =? 160))%N.

(** [str.lower] on one character: [A-Z] and the Latin-1 capitals U+00C0 to
    U+00DE (without the multiplication sign U+00D7) move up by 32. *)
Definition lower_char (c : ascii) : ascii :=
  let n := ord c in
  if ((65 <=? n) && (n <=? 90) || (192 <=? n) && (n <=? 222) && negb (n =? 215))%N
  then ascii_of_N (n + 32) else c.

Fixpoint lower (s : string) : string :=
  match s with
  | EmptyString => EmptyString
  | String c r => String (lower_char c) (lower r)
  end.

Fixpoint lstrip (s : string) : string :=
  match s with
  | EmptyString => EmptyString
  | String c r => if isspace c then lstrip r else s
  end.

Fixpoint rstrip (s : string) : string :=
  match s with
  | EmptyString => EmptyString
  | String c r =>
      match rstrip r with
      | EmptyString => if isspace c then EmptyString else String c EmptyString
      | r' => String c r'
      end
  end.

(** [s.strip()] *)
Definition strip (s : string) : string := rstrip (lstrip s).

(** [x in (t1, ..., tn)] for a tuple of strings. *)
Definition in_tuple (x : string) (t : list string) : bool :=
  existsb (String.eqb x) t.

(** Every character of [s] satisfies [p]. *)
Fixpoint all (p : ascii -> bool) (s : string) : bool :=
  match s with
  | EmptyString => true
  | String c r => p c && all p r
  end.

(** [s] is empty or made of whitespace only. *)
Definition blank (s : string) : bool := all isspace s.

(** [sub in s]: [sub] occurs in [s] as a contiguous piece. *)
Definition contains (s sub : string) : Prop :=
  exists pre post : string, s = pre +:+ sub +:+ post.

End PyStr.

(** ** Characters as the C parsers of [int] and [float] classify them *)

Module PyCType.

(** [Py_ISSPACE]: tab, line feed, vertical tab, form feed, carriage return
    and space. *)
Definition ISSPACE (c : ascii) : bool :=
  let n := PyStr.ord c in ((9 <=? n) && (n <=? 13) || (n =? 32))%N.

(** [Py_ISDIGIT] *)
Definition ISDIGIT (c : ascii) : bool :=
  let n := PyStr.ord c in ((48 <=? n) && (n <=? 57))%N.

(** The value of a decimal digit character. *)
Definition digit_value (c : ascii) : Z := (Z.of_N (PyStr.ord c) - 48)%Z.

(** The number a string of decimal digits denotes. *)
Fixpoint decimal_value (s : string) (acc : N) : N :=
  match s with
  | EmptyString => acc
  | String c r => decimal_value r (10 * acc + Z.to_N (digit_value c))%N
  end.

(** [_PyUnicode_TransformDecimalAndSpaceToASCII]: an all-ASCII string is
    returned as it is; otherwise each character from 127 on becomes a space
    if it is whitespace and, being no decimal digit below 256, a question
    mark that also ends the result. *)
Fixpoint transform_loop (s : string) : string :=
  match s with
  | EmptyString => EmptyString
  | String c r =>
      if (PyStr.ord c <? 127)%N then String c (transform_loop r)
      else if PyStr.isspace c then String " " (transform_loop r)
      else String "?" EmptyString
  end.

Definition is_ascii (c : ascii) : bool := (PyStr.ord c <? 128)%N.

Definition transform_decimal_and_space (s : string) : string :=
  if PyStr.all is_ascii s then s else transform_loop s.

Fixpoint skip_space (s : string) : string :=
  match s with
  | EmptyString => EmptyString
  | String c r => if ISSPACE c then skip_space r else s
  end.

End PyCType.

(** ** The builtin [int(str)], base 10 *)

Module PyInt.
Import PyCType.

(** [sys.get_int_max_str_digits()], at CPython's default. *)
Definition max_str_digits : nat := 4300.

(** The digit scan of [long_from_string_base]: digits and single
    underscores between them. [prev_us] tells that the previous character
    was an underscore, [acc] is the value and [n] the number of the digits
    read so far. The result is [None] on a doubled or trailing underscore,
    and else the value, the digit count and the unread rest. *)
Fixpoint scan (s : string) (prev_us : bool) (acc : Z) (n : nat)
  : option (Z * nat * string) :=
  match s with
  | EmptyString => if prev_us then None else Some (acc, n, s)
  | String c r =>
      if ISDIGIT c then scan r false (10 * acc + digit_value c)%Z (S n)
      else if Ascii.eqb c "_" then
        if prev_us then None else scan r true acc n
      else if prev_us then None else Some (acc, n, s)
  end.

(** An optional sign; [true] is negative. *)
Definition read_sign (s : string) : bool * string :=
  match s with
  | String "-" r => (true, r)
  | String "+" r => (false, r)
  | _ => (false, s)
  end.

(** [PyLong_FromString(s, &end, 10)] together with the caller's test that
    the whole string was read. [None] stands for the [ValueError]. *)
Definition from_string (s : string) : option Z :=
  let s := skip_space s in
  let '(neg, s) := read_sign s in
  match s with
  | String "_" _ => None
  | _ =>
      match scan s false 0%Z 0%nat with
      | None => None
      | Some (v, n, rest) =>
          if (n =? 0)%nat then None
          else if (max_str_digits <? n)%nat then None
          else
            match skip_space rest with
            | EmptyString => Some (if neg : bool then (- v)%Z else v)
            | _ => None
            end
      end
  end.

(** [int(s)] for a string [s]; [None] stands for the [ValueError]. *)
Definition int (s : string) : option Z :=
  from_string (transform_decimal_and_space s).

End PyInt.

(** ** The builtin [float(str)] *)

Module PyFloat.
Import PyCType.

(** binary64 *)
Definition prec : Z := 53.
Definition emax : Z := 1024.

(** The binary64 number nearest to [m * 10^e] (ties to even), with the sign
    [neg]; what the correctly rounded [_Py_dg_strtod] returns for the digits
    [m] and the decimal exponent [e], overflow giving an infinity and
    underflow a zero. *)
Definition of_decimal (neg : bool) (m : N) (e : Z) : spec_float :=
  match m with
  | N0 => S754_zero neg
  | Npos p =>
      if (0 <=? e)%Z
      then binary_round prec emax neg (p * Z.to_pos (10 ^ e)) 0
      else SFdiv prec emax (S754_finite neg p 0)
                           (S754_finite false (Z.to_pos (10 ^ (- e))) 0)
  end.

(** [Py_TOLOWER] *)
Definition TOLOWER (c : ascii) : ascii :=
  let n := PyStr.ord c in
  if ((65 <=? n) && (n <=? 90))%N then ascii_of_N (n + 32) else c.

(** [case_insensitive_match(s, t)]: the rest of [s] after the prefix that
    matches the lower-case [t], if there is one. *)
Fixpoint case_insensitive_match (s t : string) : option string :=
  match t with
  | EmptyString => Some s
  | String ct t' =>
      match s with
      | EmptyString => None
      | String cs s' =>
          if Ascii.eqb (TOLOWER cs) ct then case_insensitive_match s' t' else None
      end
  end.

(** [_Py_parse_inf_or_nan] *)
Definition parse_inf_or_nan (s : string) : option (spec_float * string) :=
  let '(neg, s) := PyInt.read_sign s in
  match case_insensitive_match s "inf" with
  | Some r =>
      Some (S754_infinity neg,
            match case_insensitive_match r "inity" with Some r' => r' | None => r end)
  | None =>
      match case_insensitive_match s "nan" with
      | Some r => Some (S754_nan, r)
      | None => None
      end
  end.

(** The leading decimal digits of [s], and the rest. *)
Fixpoint span_digits (s : string) : string * string :=
  match s with
  | EmptyString => (EmptyString, EmptyString)
  | String c r =>
      if ISDIGIT c then let '(d, r') := span_digits r in (String c d, r')
      else (EmptyString, s)
  end.

Fixpoint skip_zeros (s : string) : string :=
  match s with
  | String "0" r => skip_zeros r
  | _ => s
  end.

Definition strlen (s : string) : N := N.of_nat (String.length s).

Definition MAX_DIGITS : N := 1000000000.

(** The exponent part: [e] or [E], an optional sign and at least one digit;
    without a digit nothing is read. *)
Definition read_exponent (s : string) : Z * string :=
  match s with
  | String c r =>
      if Ascii.eqb c "e" || Ascii.eqb c "E" then
        let '(eneg, r1) := PyInt.read_sign r in
        let '(ds, r2) := span_digits r1 in
        match ds with
        | EmptyString => (0%Z, s)
        | _ => let v := Z.of_N (decimal_value ds 0) in
               ((if eneg : bool then - v else v)%Z, r2)
        end
      else (0%Z, s)
  | EmptyString => (0%Z, s)
  end.

(** [_Py_dg_strtod(s, &end)]: a sign, digits with an optional point, an
    optional exponent. [None] when no number starts [s]; else the number and
    the unread rest. *)
Definition dg_strtod (s : string) : option (spec_float * string) :=
  let '(neg, s1) := PyInt.read_sign s in
  let '(idigits, s2) := span_digits s1 in
  let '(fdigits, s3) :=
    match s2 with
    | String "." r => span_digits r
    | _ => (EmptyString, s2)
    end in
  match idigits +:+ fdigits with
  | EmptyString => None
  | digits =>
      let ndigits :=
        match skip_zeros idigits with
        | EmptyString => strlen (skip_zeros fdigits)
        | sig => (strlen sig + strlen fdigits)%N
        end in
      if ((MAX_DIGITS <? ndigits) || (MAX_DIGITS <? strlen fdigits))%N then None
      else
        let '(e, s4) := read_exponent s3 in
        Some (of_decimal neg (decimal_value digits 0) (e - Z.of_N (strlen fdigits)), s4)
  end.

(** [_PyOS_ascii_strtod] *)
Definition ascii_strtod (s : string) : option (spec_float * string) :=
  match dg_strtod s with
  | Some r => Some r
  | None => parse_inf_or_nan s
  end.

(** [_Py_string_to_number_with_underscores]: the string without its
    underscores, each of which must stand between two digits. [prev] is the
    character before [s]. *)
Fixpoint strip_underscores (s : string) (prev : ascii) : option string :=
  match s with
  | EmptyString => if Ascii.eqb prev "_" then None else Some EmptyString
  | String c r =>
      if Ascii.eqb c "_" then
        if ISDIGIT prev then strip_underscores r c else None
      else if Ascii.eqb prev "_" && negb (ISDIGIT c) then None
      else String c <$> strip_underscores r c
  end.

(** [s] without its trailing [Py_ISSPACE] characters. *)
Fixpoint rskip_space (s : string) : string :=
  match s with
  | EmptyString => EmptyString
  | String c r =>
      match rskip_space r with
      | EmptyString => if ISSPACE c then EmptyString else String c EmptyString
      | r' => String c r'
      end
  end.

(** [float_from_string_inner]: surrounding whitespace is dropped, the
    trailing one only up to the first character, and the number must fill
    what remains. *)
Definition from_string_inner (s : string) : option spec_float :=
  match skip_space s with
  | EmptyString => None
  | String c r =>
      match ascii_strtod (String c (rskip_space r)) with
      | Some (x, EmptyString) => Some x
      | _ => None
      end
  end.

(** [float(s)] for a string [s]; [None] stands for the [ValueError]. *)
Definition float (s : string) : option spec_float :=
  match strip_underscores (transform_decimal_and_space s) "000"%char with
  | None => None
  | Some s' => from_string_inner s'
  end.

(** The [==] of two floats. *)
Definition eqb (x y : spec_float) : bool := SFeqb x y.

End PyFloat.

(** ** The module [kvdistlead.config] *)

Module Config.

(** The exceptions the module raises, with their message. *)
Inductive exn :=
  | ValueError (msg : string)
  | RuntimeError (msg : string).

(** The values stored in the configuration dictionary. *)
Inductive value :=
  | VNone
  | VStr (s : string)
  | VInt (z : Z)
  | VFloat (f : spec_float)
  | VBool (b : bool).

(** A computation that reads [os.environ] and either raises or returns. *)
Definition M (A : Type) : Type := gmap string string -> exn + A.

#[export] Instance M_ret : MRet M := fun A a _ => inr a.
#[export] Instance M_bind : MBind M := fun A B k m env =>
  match m env with
  | inl e => inl e
  | inr a => k a env
  end.

Definition raise {A : Type} (e : exn) : M A := fun _ => inl e.

(** [os.getenv(key, default=None)] *)
Definition getenv (key : string) (default : option string) : M (option string) :=
  fun env =>
    inr (match env !! key with
         | Some v => Some v
         | None => default
         end).

(** A dictionary display [{k1: v1, ..., kn: vn}]: the items are inserted
    from left to right. *)
Definition dict_display (items : list (string * value)) : gmap string value :=
  foldl (fun d kv => <[kv.1 := kv.2]> d) ∅ items.

(** An [Optional[str]] as a dictionary value. *)
Definition of_optional_str (o : option string) : value :=
  match o with
  | None => VNone
  | Some s => VStr s
  end.

(** [str_to_bool(value, default=True)] *)
Definition str_to_bool (value : option string) (default : bool) : bool :=
  match value with
  | None => default
  | Some value => PyStr.in_tuple (PyStr.lower value) ["1"; "true"; "yes"; "y"; "t"]
  end.

(** The messages of the three errors. *)
Definition int_msg (name raw : string) : string :=
  "Environment variable " +:+ name +:+ " must be an integer, got '" +:+ raw +:+ "'".

Definition float_msg (name raw : string) : string :=
  "Environment variable " +:+ name +:+ " must be a float, got '" +:+ raw +:+ "'".

Definition required_msg (name : string) : string :=
  "Environment variable " +:+ name +:+ " is required for startup".

(** The error kinds of the specification, as the exceptions that carry
    them. *)
Definition InvalidInteger (name raw : string) : exn := ValueError (int_msg name raw).
Definition InvalidFloat (name raw : string) : exn := ValueError (float_msg name raw).
Definition MissingRequired (name : string) : exn := RuntimeError (required_msg name).

(** [get_int(name, default)] *)
Definition get_int (name : string) (default : Z) : M Z :=
  raw ← getenv name None;
  match raw with
  | None => mret default
  | Some raw =>
      match PyInt.int raw with
      | Some n => mret n
      | None => raise (ValueError (int_msg name raw))
      end
  end.

(** [get_float(name, default)] *)
Definition get_float (name : string) (default : spec_float) : M spec_float :=
  raw ← getenv name None;
  match raw with
  | None => mret default
  | Some raw =>
      match PyFloat.float raw with
      | Some x => mret x
      | None => raise (ValueError (float_msg name raw))
      end
  end.

(** [get_required(name)] *)
Definition get_required (name : string) : M string :=
  value ← getenv name None;
  match value with
  | None => raise (RuntimeError (required_msg name))
  | Some value =>
      if String.eqb (PyStr.strip value) "" then raise (RuntimeError (required_msg name))
      else mret value
  end.

(** The literal [1.0]. *)
Definition float_1_0 : spec_float := S754_finite false 4503599627370496 (-52).

(** [get_config()] *)
Definition get_config : M (gmap string value) :=
  lock_key ← get_required "LOCK_KEY";
  lock_ttl_ms ← get_int "LOCK_TTL_MS" 15000;
  lock_renew_every_ms ← get_int "LOCK_RENEW_EVERY_MS" 5000;
  standby_sleep_ms ← get_int "STANDBY_SLEEP_MS" 2000;
  redis_host ← getenv "REDIS_HOST" (Some "redis");
  redis_port ← get_int "REDIS_PORT" 6379;
  redis_db ← get_int "REDIS_DB" 0;
  redis_password ← getenv "REDIS_PASSWORD" None;
  instance_id ← getenv "INSTANCE_ID" None;
  connect_timeout ← get_float "REDIS_SOCKET_CONNECT_TIMEOUT" float_1_0;
  socket_timeout ← get_float "REDIS_SOCKET_TIMEOUT" float_1_0;
  retry_raw ← getenv "REDIS_RETRY_ON_TIMEOUT" (Some "true");
  mret (dict_display [
    ("INSTANCE_ID", of_optional_str instance_id);
    ("LOCK_KEY", VStr lock_key);
    ("LOCK_TTL_MS", VInt lock_ttl_ms);
    ("LOCK_RENEW_EVERY_MS", VInt lock_renew_every_ms);
    ("STANDBY_SLEEP_MS", VInt standby_sleep_ms);
    ("REDIS_HOST", of_optional_str redis_host);
    ("REDIS_PORT", VInt redis_port);
    ("REDIS_DB", VInt redis_db);
    ("REDIS_PASSWORD", of_optional_str redis_password);
    ("REDIS_SOCKET_CONNECT_TIMEOUT", VFloat connect_timeout);
    ("REDIS_SOCKET_TIMEOUT", VFloat socket_timeout);
    ("REDIS_RETRY_ON_TIMEOUT", VBool (str_to_bool retry_raw true))
  ]).

(** Two calls of [get_config()] one after the other, as in
    [a = get_config(); b = get_config()]. *)
Definition get_config_twice : M (gmap string value * gmap string value) :=
  a ← get_config;
  b ← get_config;
  mret (a, b).

(** *** Python's [==] on the values of the dictionary *)

(** A float equals an integer when it denotes exactly that integer. *)
Definition float_eq_int (f : spec_float) (z : Z) : bool :=
  match f with
  | S754_zero _ => (z =? 0)%Z
  | S754_finite s m e =>
      let mz := cond_Zopp s (Zpos m) in
      if (0 <=? e)%Z then (z =? mz * 2 ^ e)%Z else (z * 2 ^ (- e) =? mz)%Z
  | _ => false
  end.

(** A [bool] is an [int]. *)
Definition as_int (v : value) : option Z :=
  match v with
  | VInt z => Some z
  | VBool b => Some (if b then 1 else 0)%Z
  | _ => None
  end.

(** [v == w] for two distinct objects [v] and [w]. *)
Definition value_eq (v w : value) : bool :=
  match v, w with
  | VNone, VNone => true
  | VStr a, VStr b => String.eqb a b
  | VFloat x, VFloat y => PyFloat.eqb x y
  | VFloat x, _ => match as_int w with Some z => float_eq_int x z | None => false end
  | _, VFloat y => match as_int v with Some z => float_eq_int y z | None => false end
  | _, _ =>
      match as_int v, as_int w with
      | Some a, Some b => (a =? b)%Z
      | _, _ => false
      end
  end.

(** [a == b] for two dictionaries with distinct value objects: the same
    number of items, and each key of [a] is in [b] with an equal value. *)
Definition dict_eq (a b : gmap string value) : bool :=
  (size a =? size b)%nat &&
  forallb (fun kv => match b !! kv.1 with
                     | Some w => value_eq kv.2 w
                     | None => false
                     end) (map_to_list a).

End Config.

(** ** The schema of the settings, resolved in a chosen order *)

Module Schema.
Import Config.

Inductive field :=
  | INSTANCE_ID
  | LOCK_KEY
  | LOCK_TTL_MS
  | LOCK_RENEW_EVERY_MS
  | STANDBY_SLEEP_MS
  | REDIS_HOST
  | REDIS_PORT
  | REDIS_DB
  | REDIS_PASSWORD
  | REDIS_SOCKET_CONNECT_TIMEOUT
  | REDIS_SOCKET_TIMEOUT
  | REDIS_RETRY_ON_TIMEOUT.

#[global] Instance field_eq_dec : EqDecision field.
Proof. solve_decision. Defined.

(** The key of a field in the dictionary. *)
Definition key (f : field) : string :=
  match f with
  | INSTANCE_ID => "INSTANCE_ID"
  | LOCK_KEY => "LOCK_KEY"
  | LOCK_TTL_MS => "LOCK_TTL_MS"
  | LOCK_RENEW_EVERY_MS => "LOCK_RENEW_EVERY_MS"
  | STANDBY_SLEEP_MS => "STANDBY_SLEEP_MS"
  | REDIS_HOST => "REDIS_HOST"
  | REDIS_PORT => "REDIS_PORT"
  | REDIS_DB => "REDIS_DB"
  | REDIS_PASSWORD => "REDIS_PASSWORD"
  | REDIS_SOCKET_CONNECT_TIMEOUT => "REDIS_SOCKET_CONNECT_TIMEOUT"
  | REDIS_SOCKET_TIMEOUT => "REDIS_SOCKET_TIMEOUT"
  | REDIS_RETRY_ON_TIMEOUT => "REDIS_RETRY_ON_TIMEOUT"
  end.

(** The resolution of one field: the expression [get_config] evaluates for
    it. *)
Definition resolve (f : field) : M value :=
  match f with
  | INSTANCE_ID => o ← getenv "INSTANCE_ID" None; mret (of_optional_str o)
  | LOCK_KEY => s ← get_required "LOCK_KEY"; mret (VStr s)
  | LOCK_TTL_MS => z ← get_int "LOCK_TTL_MS" 15000; mret (VInt z)
  | LOCK_RENEW_EVERY_MS => z ← get_int "LOCK_RENEW_EVERY_MS" 5000; mret (VInt z)
  | STANDBY_SLEEP_MS => z ← get_int "STANDBY_SLEEP_MS" 2000; mret (VInt z)
  | REDIS_HOST => o ← getenv "REDIS_HOST" (Some "redis"); mret (of_optional_str o)
  | REDIS_PORT => z ← get_int "REDIS_PORT" 6379; mret (VInt z)
  | REDIS_DB => z ← get_int "REDIS_DB" 0; mret (VInt z)
  | REDIS_PASSWORD => o ← getenv "REDIS_PASSWORD" None; mret (of_optional_str o)
  | REDIS_SOCKET_CONNECT_TIMEOUT =>
      x ← get_float "REDIS_SOCKET_CONNECT_TIMEOUT" float_1_0; mret (VFloat x)
  | REDIS_SOCKET_TIMEOUT =>
      x ← get_float "REDIS_SOCKET_TIMEOUT" float_1_0; mret (VFloat x)
  | REDIS_RETRY_ON_TIMEOUT =>
      o ← getenv "REDIS_RETRY_ON_TIMEOUT" (Some "true"); mret (VBool (str_to_bool o true))
  end.

(** The fields of [order] resolved one after the other; the first exception
    ends the resolution. *)
Fixpoint resolve_in_order (order : list field) : M (list (string * value)) :=
  match order with
  | [] => mret []
  | f :: rest =>
      v ← resolve f;
      items ← resolve_in_order rest;
      mret ((key f, v) :: items)
  end.

(** The assembler that resolves the fields in the order [order]. *)
Definition assemble (order : list field) : M (gmap string value) :=
  items ← resolve_in_order order;
  mret (list_to_map items).

(** The value a field resolves to, and [None] when its resolution raises. *)
Definition value_of (f : field) (env : gmap string string) : value :=
  match resolve f env with
  | inr v => v
  | inl _ => VNone
  end.

Definition resolves (f : field) (env : gmap string string) : bool :=
  match resolve f env with
  | inr _ => true
  | inl _ => false
  end.

(** The items of the dictionary for the fields of [order]. *)
Definition items_of (env : gmap string string) (order : list field)
  : list (string * value) :=
  (fun f => (key f, value_of f env)) <$> order.

(** The order in which [get_config] evaluates the fields. *)
Definition source_order : list field :=
  [LOCK_KEY; LOCK_TTL_MS; LOCK_RENEW_EVERY_MS; STANDBY_SLEEP_MS; REDIS_HOST;
   REDIS_PORT; REDIS_DB; REDIS_PASSWORD; INSTANCE_ID;
   REDIS_SOCKET_CONNECT_TIMEOUT; REDIS_SOCKET_TIMEOUT; REDIS_RETRY_ON_TIMEOUT].

(** Another order: the port first, then the other fields as in the
    source. *)
Definition port_first : list field :=
  REDIS_PORT ::
  [LOCK_KEY; LOCK_TTL_MS; LOCK_RENEW_EVERY_MS; STANDBY_SLEEP_MS; REDIS_HOST] ++
  [REDIS_DB; REDIS_PASSWORD; INSTANCE_ID;
   REDIS_SOCKET_CONNECT_TIMEOUT; REDIS_SOCKET_TIMEOUT; REDIS_RETRY_ON_TIMEOUT].

End Schema.

(** ** Concrete environments *)

Module Env.

(** [LOCK_KEY=svc-a] and [REDIS_PORT=6380], everything else unset. *)
Definition svc_a : gmap string string :=
  <["REDIS_PORT" := "6380"]> (<["LOCK_KEY" := "svc-a"]> ∅).

(** [LOCK_KEY] made of three spaces. *)
Definition blank_lock_key : gmap string string :=
  <["LOCK_KEY" := "   "]> ∅.


(** A valid [LOCK_KEY] and a socket timeout that is not-a-number. *)
Definition timeout_nan : gmap string string :=
  <["REDIS_SOCKET_TIMEOUT" := "nan"]> (<["LOCK_KEY" := "svc-a"]> ∅).

(** No [LOCK_KEY] and a port that is no number: two fields fail. *)
Definition no_key_bad_port : gmap string string :=
  <["REDIS_PORT" := "abc"]> ∅.

(** A valid [LOCK_KEY], an empty host and a blank password. *)
Definition blank_optionals : gmap string string :=
  <["REDIS_PASSWORD" := "  "]> (<["REDIS_HOST" := ""]> (<["LOCK_KEY" := "svc-a"]> ∅)).

(** A valid [LOCK_KEY] and an empty [LOCK_TTL_MS]. *)
Definition empty_ttl : gmap string string :=
  <["LOCK_TTL_MS" := ""]> (<["LOCK_KEY" := "svc-a"]> ∅).

End Env.

(** ** The names of the settings *)

Module Table.
Import Config Schema.

(** The keys of the dictionary display of [get_config], in its order. *)
Definition names : list string :=
  ["INSTANCE_ID"; "LOCK_KEY"; "LOCK_TTL_MS"; "LOCK_RENEW_EVERY_MS";
   "STANDBY_SLEEP_MS"; "REDIS_HOST"; "REDIS_PORT"; "REDIS_DB"; "REDIS_PASSWORD";
   "REDIS_SOCKET_CONNECT_TIMEOUT"; "REDIS_SOCKET_TIMEOUT";
   "REDIS_RETRY_ON_TIMEOUT"].

(** The settings read with [get_int], in the order of the calls. *)
Definition int_names : list string :=
  ["LOCK_TTL_MS"; "LOCK_RENEW_EVERY_MS"; "STANDBY_SLEEP_MS"; "REDIS_PORT"; "REDIS_DB"].

(** The settings read with [get_float], in the order of the calls. *)
Definition float_names : list string :=
  ["REDIS_SOCKET_CONNECT_TIMEOUT"; "REDIS_SOCKET_TIMEOUT"].

(** The truthy tokens of [str_to_bool]. *)
Definition truthy : list string := ["1"; "true"; "yes"; "y"; "t"].

(** The value [get_config] stores for a setting that is not in the
    environment: the [default] argument of the call that reads it. LOCK_KEY
    has none. *)
Definition default_value (f : field) : option value :=
  match f with
  | LOCK_KEY => None
  | INSTANCE_ID => Some VNone
  | LOCK_TTL_MS => Some (VInt 15000)
  | LOCK_RENEW_EVERY_MS => Some (VInt 5000)
  | STANDBY_SLEEP_MS => Some (VInt 2000)
  | REDIS_HOST => Some (VStr "redis")
  | REDIS_PORT => Some (VInt 6379)
  | REDIS_DB => Some (VInt 0)
  | REDIS_PASSWORD => Some VNone
  | REDIS_SOCKET_CONNECT_TIMEOUT => Some (VFloat float_1_0)
  | REDIS_SOCKET_TIMEOUT => Some (VFloat float_1_0)
  | REDIS_RETRY_ON_TIMEOUT => Some (VBool true)
  end.

(** The raw values of a setting with which its field resolves: a LOCK_KEY
    that is set and not blank, a number that is unset or parses. *)
Definition accepts (f : field) (o : option string) : bool :=
  match f with
  | LOCK_KEY =>
      match o with
      | Some raw => negb (PyStr.blank raw)
      | None => false
      end
  | LOCK_TTL_MS | LOCK_RENEW_EVERY_MS | STANDBY_SLEEP_MS | REDIS_PORT | REDIS_DB =>
      match o with
      | Some raw => bool_decide (is_Some (PyInt.int raw))
      | None => true
      end
  | REDIS_SOCKET_CONNECT_TIMEOUT | REDIS_SOCKET_TIMEOUT =>
      match o with
      | Some raw => bool_decide (is_Some (PyFloat.float raw))
      | None => true
      end
  | INSTANCE_ID | REDIS_HOST | REDIS_PASSWORD | REDIS_RETRY_ON_TIMEOUT => true
  end.

(** Some character of [s] is whitespace. *)
Definition has_space (s : string) : bool :=
  negb (PyStr.all (fun c => negb (PyStr.isspace c)) s).

End Table.

(** ** More concrete environments *)

Module Samples.

(** [Env.svc_a] in a process that has other variables too. *)
Definition svc_a_in_shell : gmap string string :=
  <["HOME" := "/root"]> (<["PATH" := "/usr/bin"]> Env.svc_a).


(** A float where an integer is wanted, and a timeout that is no number. *)
Definition bad_db_bad_timeout : gmap string string :=
  <["REDIS_SOCKET_TIMEOUT" := "soon"]>
    (<["REDIS_DB" := "1.5"]> (<["LOCK_KEY" := "svc-a"]> ∅)).

(** Every setting given. *)
Definition full : gmap string string :=
  <["REDIS_RETRY_ON_TIMEOUT" := "No"]>
  (<["REDIS_SOCKET_TIMEOUT" := "2.5"]>
  (<["REDIS_SOCKET_CONNECT_TIMEOUT" := "0.1"]>
  (<["REDIS_PASSWORD" := "s3cret"]>
  (<["REDIS_DB" := "3"]>
  (<["REDIS_PORT" := " 6380 "]>
  (<["REDIS_HOST" := "10.0.0.7"]>
  (<["STANDBY_SLEEP_MS" := "1_000"]>
  (<["LOCK_RENEW_EVERY_MS" := "+2500"]>
  (<["LOCK_TTL_MS" := "9000"]>
  (<["LOCK_KEY" := " leader:svc-a "]>
  (<["INSTANCE_ID" := "node-1"]> ∅))))))))))).

End Samples.

(** * Properties *)

Import Config.

(** ** Strings *)

Section StrFacts.

Lemma lstrip_head (s : string) :
  PyStr.lstrip s = "" \/
  exists c r, PyStr.lstrip s = String c r /\ PyStr.isspace c = false.
Proof.
  induction s as [|c r IH]; simpl; [by left|].
  destruct (PyStr.isspace c) eqn:E; [exact IH|].
  right. by exists c, r.
Qed.

Lemma lstrip_empty_iff (s : string) :
  PyStr.lstrip s = "" <-> PyStr.blank s = true.
Proof.
  unfold PyStr.blank.
  induction s as [|c r IH]; simpl; [done|].
  destruct (PyStr.isspace c); simpl; [exact IH|].
  split; discriminate.
Qed.

Lemma rstrip_head (c : ascii) (r : string) :
  PyStr.isspace c = false -> PyStr.rstrip (String c r) <> "".
Proof.
  intros E. simpl. destruct (PyStr.rstrip r); [by rewrite E|done].
Qed.

(** [s.strip() == ""] holds exactly for the blank strings. *)
Lemma strip_empty_iff (s : string) :
  PyStr.strip s = "" <-> PyStr.blank s = true.
Proof.
  rewrite <- lstrip_empty_iff. unfold PyStr.strip.
  destruct (lstrip_head s) as [E | (c & r & E & Hc)]; rewrite E.
  - done.
  - split; [|discriminate]. intros H. by apply rstrip_head in H.
Qed.

Lemma strip_eqb_blank (s : string) :
  String.eqb (PyStr.strip s) "" = PyStr.blank s.
Proof.
  destruct (PyStr.blank s) eqn:E.
  - apply strip_empty_iff in E. by rewrite E.
  - apply String.eqb_neq. intros H. apply strip_empty_iff in H. congruence.
Qed.

Lemma in_tuple_spec (x : string) (t : list string) :
  PyStr.in_tuple x t = true <-> In x t.
Proof.
  unfold PyStr.in_tuple. rewrite existsb_exists. split.
  - intros (y & Hy & E). apply String.eqb_eq in E. by subst.
  - intros H. exists x. split; [done|apply String.eqb_refl].
Qed.

Lemma append_assoc (a b c : string) : (a +:+ b) +:+ c = a +:+ b +:+ c.
Proof.
  induction a as [|x a IH]; [done|].
  change (String x ((a +:+ b) +:+ c) = String x (a +:+ b +:+ c)).
  by rewrite IH.
Qed.

Lemma contains_mid (a b c : string) : PyStr.contains (a +:+ b +:+ c) b.
Proof. by exists a, c. Qed.

Lemma contains_last (a b c d e : string) :
  PyStr.contains (a +:+ b +:+ c +:+ d +:+ e) d.
Proof.
  exists (a +:+ b +:+ c), e.
  by rewrite !append_assoc.
Qed.

End StrFacts.

(** ** The coercers *)

Section Coercers.

Context (env : gmap string string).

Lemma get_int_unfold (name : string) (default : Z) :
  get_int name default env =
  match env !! name with
  | None => inr default
  | Some raw =>
      match PyInt.int raw with
      | Some n => inr n
      | None => inl (InvalidInteger name raw)
      end
  end.
Proof.
  unfold get_int, getenv, mbind, M_bind.
  destruct (env !! name) as [raw|]; [|done].
  by destruct (PyInt.int raw).
Qed.

Lemma get_float_unfold (name : string) (default : spec_float) :
  get_float name default env =
  match env !! name with
  | None => inr default
  | Some raw =>
      match PyFloat.float raw with
      | Some x => inr x
      | None => inl (InvalidFloat name raw)
      end
  end.
Proof.
  unfold get_float, getenv, mbind, M_bind.
  destruct (env !! name) as [raw|]; [|done].
  by destruct (PyFloat.float raw).
Qed.

Lemma get_required_unfold (name : string) :
  get_required name env =
  match env !! name with
  | None => inl (MissingRequired name)
  | Some raw => if PyStr.blank raw then inl (MissingRequired name) else inr raw
  end.
Proof.
  unfold get_required, getenv, mbind, M_bind.
  destruct (env !! name) as [raw|]; [|done].
  rewrite strip_eqb_blank. by destruct (PyStr.blank raw).
Qed.

End Coercers.

(** ** Plain decimal numerals are read by [int] as the number they denote *)

Section Numerals.
Import PyCType.

Lemma digit_is_ascii (c : ascii) : ISDIGIT c = true -> is_ascii c = true.
Proof.
  unfold ISDIGIT, is_ascii. intros H.
  apply andb_true_iff in H as [_ H]. apply N.leb_le in H. apply N.ltb_lt. lia.
Qed.

Lemma digits_are_ascii (ds : string) :
  PyStr.all ISDIGIT ds = true -> PyStr.all is_ascii ds = true.
Proof.
  induction ds as [|c r IH]; simpl; [done|].
  intros H. apply andb_true_iff in H as [Hc Hr].
  by rewrite (digit_is_ascii c Hc), IH.
Qed.

Lemma digit_value_nonneg (c : ascii) :
  ISDIGIT c = true -> (0 <= digit_value c <= 9)%Z.
Proof.
  unfold ISDIGIT, digit_value. intros H.
  apply andb_true_iff in H as [H1 H2].
  apply N.leb_le in H1. apply N.leb_le in H2. lia.
Qed.

Lemma scan_digits (ds : string) :
  PyStr.all ISDIGIT ds = true ->
  forall (acc : N) (n : nat),
    PyInt.scan ds false (Z.of_N acc) n
    = Some (Z.of_N (decimal_value ds acc), (n + String.length ds)%nat, "").
Proof.
  induction ds as [|c r IH]; simpl; intros H acc n.
  - by rewrite Nat.add_0_r.
  - apply andb_true_iff in H as [Hc Hr]. rewrite Hc.
    pose proof (digit_value_nonneg c Hc) as Hv.
    replace (10 * Z.of_N acc + digit_value c)%Z
      with (Z.of_N (10 * acc + Z.to_N (digit_value c))) by lia.
    rewrite (IH Hr). do 3 f_equal. lia.
Qed.

Lemma from_string_digit (c : ascii) (r : string) :
  ISDIGIT c = true ->
  PyInt.from_string (String c r) =
  match PyInt.scan (String c r) false 0%Z 0%nat with
  | None => None
  | Some (v, n, rest) =>
      if (n =? 0)%nat then None
      else if (PyInt.max_str_digits <? n)%nat then None
      else match skip_space rest with
           | EmptyString => Some v
           | _ => None
           end
  end.
Proof.
  intros Hc.
  destruct c as [[] [] [] [] [] [] [] []]; try (by vm_compute in Hc); reflexivity.
Qed.

Lemma int_of_digits (ds : string) :
  ds <> "" ->
  PyStr.all ISDIGIT ds = true ->
  (String.length ds <= PyInt.max_str_digits)%nat ->
  PyInt.int ds = Some (Z.of_N (decimal_value ds 0)).
Proof.
  intros Hne Hd Hlen.
  unfold PyInt.int, transform_decimal_and_space.
  rewrite (digits_are_ascii ds Hd).
  destruct ds as [|c r]; [done|]. clear Hne.
  pose proof Hd as Hd'. simpl in Hd'. apply andb_true_iff in Hd' as [Hc Hr].
  rewrite (from_string_digit c r Hc).
  change 0%Z with (Z.of_N 0). rewrite (scan_digits _ Hd).
  simpl String.length.
  destruct (Nat.ltb_spec PyInt.max_str_digits (0 + S (String.length r))) as [Hlt|_].
  { simpl in Hlen. lia. }
  done.
Qed.

Lemma from_string_signed (neg : bool) (c : ascii) (r : string) :
  ISDIGIT c = true ->
  PyInt.from_string (String (if neg then "-" else "+")%char (String c r)) =
  match PyInt.scan (String c r) false 0%Z 0%nat with
  | None => None
  | Some (v, n, rest) =>
      if (n =? 0)%nat then None
      else if (PyInt.max_str_digits <? n)%nat then None
      else match skip_space rest with
           | EmptyString => Some (if neg then (- v)%Z else v)
           | _ => None
           end
  end.
Proof.
  intros Hc.
  destruct c as [[] [] [] [] [] [] [] []]; try (by vm_compute in Hc);
    destruct neg; reflexivity.
Qed.

Lemma int_of_signed_digits (neg : bool) (ds : string) :
  ds <> "" ->
  PyStr.all ISDIGIT ds = true ->
  (String.length ds <= PyInt.max_str_digits)%nat ->
  PyInt.int (String (if neg then "-" else "+")%char ds)
  = Some (if neg then (- Z.of_N (decimal_value ds 0))%Z else Z.of_N (decimal_value ds 0)).
Proof.
  intros Hne Hd Hlen.
  unfold PyInt.int, transform_decimal_and_space.
  assert (PyStr.all is_ascii (String (if neg then "-" else "+")%char ds) = true) as ->.
  { simpl. rewrite (digits_are_ascii ds Hd). by destruct neg. }
  destruct ds as [|c r]; [done|]. clear Hne.
  pose proof Hd as Hd'. simpl in Hd'. apply andb_true_iff in Hd' as [Hc Hr].
  rewrite (from_string_signed neg c r Hc).
  change 0%Z with (Z.of_N 0). rewrite (scan_digits _ Hd).
  simpl String.length.
  destruct (Nat.ltb_spec PyInt.max_str_digits (0 + S (String.length r))) as [Hlt|_].
  { simpl in Hlen. lia. }
  done.
Qed.

(** A decimal numeral: digits after an optional sign. *)
Lemma int_of_numeral (sign ds : string) :
  sign ∈ [""; "+"; "-"] ->
  ds <> "" ->
  PyStr.all ISDIGIT ds = true ->
  (String.length ds <= PyInt.max_str_digits)%nat ->
  PyInt.int (sign +:+ ds)
  = Some (if String.eqb sign "-" then (- Z.of_N (decimal_value ds 0))%Z
          else Z.of_N (decimal_value ds 0)).
Proof.
  intros Hs Hne Hd Hlen.
  repeat (apply elem_of_cons in Hs as [->|Hs]); [| | |by apply elem_of_nil in Hs].
  - by apply int_of_digits.
  - by apply (int_of_signed_digits false).
  - by apply (int_of_signed_digits true).
Qed.

End Numerals.

(** ** Properties of the coercers *)

(** C3. The boolean coercer returns the default for an absent input; for a
    present input it returns true exactly when the lowercased input is one of
    the tokens 1, true, yes, y, t, and false for every other string. Its
    result type is [bool]: there is no failure. *)
Theorem str_to_bool_total (default : bool) :
  str_to_bool None default = default /\
  forall s : string,
    str_to_bool (Some s) default
    = bool_decide (PyStr.lower s ∈ ["1"; "true"; "yes"; "y"; "t"]).
Proof.
  split; [done|]. intros s. unfold str_to_bool.
  destruct (PyStr.in_tuple _ _) eqn:E; symmetry.
  - apply bool_decide_eq_true. apply list_elem_of_In. by apply in_tuple_spec.
  - apply bool_decide_eq_false. intros H. apply list_elem_of_In, in_tuple_spec in H.
    congruence.
Qed.

Example str_to_bool_tokens :
  map (fun s => str_to_bool (Some s) false)
      ["1"; "true"; "TRUE"; "Yes"; "yEs"; "Y"; "t"; "T"]
  = [true; true; true; true; true; true; true; true].
Proof. reflexivity. Qed.

Example str_to_bool_others :
  map (fun s => str_to_bool (Some s) true)
      [""; "0"; "no"; "false"; "on"; " true"; "true "; "2"; "yes!"]
  = [false; false; false; false; false; false; false; false; false].
Proof. reflexivity. Qed.

(** C2. The integer coercer has three outcomes and no other: the default
    when the setting is absent, the parsed value when it is present and
    [int] reads it, and else an InvalidInteger error whose message contains
    the setting name and the raw string. A string of decimal digits within
    the interpreter's digit limit is read as the number it denotes. *)
Theorem get_int_outcomes (env : gmap string string) (name : string) (default : Z) :
  ((env !! name = None /\ get_int name default env = inr default) \/
   (exists raw n, env !! name = Some raw /\ PyInt.int raw = Some n /\
                  get_int name default env = inr n) \/
   (exists raw, env !! name = Some raw /\ PyInt.int raw = None /\
                get_int name default env = inl (InvalidInteger name raw) /\
                PyStr.contains (int_msg name raw) name /\
                PyStr.contains (int_msg name raw) raw)) /\
  (forall sign ds : string,
     env !! name = Some (sign +:+ ds) ->
     sign ∈ [""; "+"; "-"] ->
     ds <> "" ->
     PyStr.all PyCType.ISDIGIT ds = true ->
     (String.length ds <= PyInt.max_str_digits)%nat ->
     get_int name default env
     = inr (if String.eqb sign "-" then (- Z.of_N (PyCType.decimal_value ds 0))%Z
            else Z.of_N (PyCType.decimal_value ds 0))).
Proof.
  split.
  - rewrite get_int_unfold.
    destruct (env !! name) as [raw|] eqn:E; [|by left].
    right. destruct (PyInt.int raw) as [n|] eqn:P.
    + left. by exists raw, n.
    + right. exists raw. repeat split; try done.
      * apply contains_mid.
      * apply contains_last.
  - intros sign ds E Hs Hne Hd Hlen. rewrite get_int_unfold, E.
    by rewrite (int_of_numeral sign ds Hs Hne Hd Hlen).
Qed.

Lemma get_int_outcomes_witness :
  Env.svc_a !! "REDIS_PORT" = Some "6380" /\
  get_int "REDIS_PORT" 6379 Env.svc_a = inr 6380%Z.
Proof.
  split; [reflexivity|].
  apply (proj2 (get_int_outcomes Env.svc_a "REDIS_PORT" 6379) "" "6380").
  - reflexivity.
  - compute_done.
  - discriminate.
  - reflexivity.
  - unfold PyInt.max_str_digits. simpl. lia.
Defined.

Example int_values :
  map PyInt.int ["12"; " 12 "; "+5"; "-0"; "007"; "1_000"; "-12";
                 ""; " "; "_1"; "1_"; "1__0"; "- 5"; "0x10"; "1.0"; "1e3"; "abc"]
  = [Some 12; Some 12; Some 5; Some 0; Some 7; Some 1000; Some (-12);
     None; None; None; None; None; None; None; None; None; None]%Z.
Proof. reflexivity. Qed.

(** C4. The required-value enforcer fails with a MissingRequired error
    naming the setting when the setting is absent or its value is blank
    (empty or whitespace only, which is when trimming leaves nothing), and
    otherwise returns the raw string as it is in the environment. *)
Theorem get_required_outcomes (env : gmap string string) (name : string) :
  get_required name env =
    match env !! name with
    | None => inl (MissingRequired name)
    | Some raw => if PyStr.blank raw then inl (MissingRequired name) else inr raw
    end /\
  PyStr.contains (required_msg name) name /\
  forall raw : string, PyStr.blank raw = String.eqb (PyStr.strip raw) "".
Proof.
  split; [apply get_required_unfold|]. split.
  - apply contains_mid.
  - intros raw. symmetry. apply strip_eqb_blank.
Qed.

Example get_required_keeps_spaces :
  get_required "LOCK_KEY" (<["LOCK_KEY" := "  svc a  "]> ∅) = inr "  svc a  ".
Proof. reflexivity. Qed.

(** C10. An integer or float setting that is present with the empty string
    is a malformed value, not an absent one: the coercer fails with
    InvalidInteger or InvalidFloat and does not return the default. *)
Theorem empty_value_is_invalid (env : gmap string string) (name : string) :
  env !! name = Some "" ->
  (forall default : Z, get_int name default env = inl (InvalidInteger name "")) /\
  (forall default : spec_float,
     get_float name default env = inl (InvalidFloat name "")).
Proof.
  intros E. split; intros default.
  - by rewrite get_int_unfold, E.
  - by rewrite get_float_unfold, E.
Qed.

Lemma empty_value_is_invalid_witness :
  Env.empty_ttl !! "LOCK_TTL_MS" = Some "" /\
  get_int "LOCK_TTL_MS" 15000 Env.empty_ttl = inl (InvalidInteger "LOCK_TTL_MS" "") /\
  get_float "LOCK_TTL_MS" float_1_0 Env.empty_ttl = inl (InvalidFloat "LOCK_TTL_MS" "").
Proof.
  split; [reflexivity|].
  destruct (empty_value_is_invalid Env.empty_ttl "LOCK_TTL_MS") as [Hi Hf].
  - reflexivity.
  - split; [apply Hi|apply Hf].
Defined.

(** ** [get_config] resolves the schema in its source order *)

Section Assembly.
Import Schema.

Lemma display_source_order (i k t r s h p d w c o b : value) :
  dict_display [
    ("INSTANCE_ID", i); ("LOCK_KEY", k); ("LOCK_TTL_MS", t);
    ("LOCK_RENEW_EVERY_MS", r); ("STANDBY_SLEEP_MS", s); ("REDIS_HOST", h);
    ("REDIS_PORT", p); ("REDIS_DB", d); ("REDIS_PASSWORD", w);
    ("REDIS_SOCKET_CONNECT_TIMEOUT", c); ("REDIS_SOCKET_TIMEOUT", o);
    ("REDIS_RETRY_ON_TIMEOUT", b)]
  = list_to_map [
    ("LOCK_KEY", k); ("LOCK_TTL_MS", t); ("LOCK_RENEW_EVERY_MS", r);
    ("STANDBY_SLEEP_MS", s); ("REDIS_HOST", h); ("REDIS_PORT", p);
    ("REDIS_DB", d); ("REDIS_PASSWORD", w); ("INSTANCE_ID", i);
    ("REDIS_SOCKET_CONNECT_TIMEOUT", c); ("REDIS_SOCKET_TIMEOUT", o);
    ("REDIS_RETRY_ON_TIMEOUT", b)].
Proof. reflexivity. Qed.

(** The source is the assembler run on [source_order]. *)
Lemma get_config_assemble (env : gmap string string) :
  get_config env = assemble source_order env.
Proof.
  unfold get_config, assemble, source_order, resolve_in_order, resolve.
  unfold mbind, M_bind, mret, M_ret, getenv.
  destruct (get_required "LOCK_KEY" env); [done|].
  destruct (get_int "LOCK_TTL_MS" 15000 env); [done|].
  destruct (get_int "LOCK_RENEW_EVERY_MS" 5000 env); [done|].
  destruct (get_int "STANDBY_SLEEP_MS" 2000 env); [done|].
  destruct (get_int "REDIS_PORT" 6379 env); [done|].
  destruct (get_int "REDIS_DB" 0 env); [done|].
  destruct (get_float "REDIS_SOCKET_CONNECT_TIMEOUT" float_1_0 env); [done|].
  destruct (get_float "REDIS_SOCKET_TIMEOUT" float_1_0 env); [done|].
  apply (f_equal inr), display_source_order.
Qed.

End Assembly.

(** ** The assembler for an arbitrary order *)

Section Orders.
Import Schema.

Context (env : gmap string string).

Lemma resolve_value_of (f : field) (v : value) :
  resolve f env = inr v -> value_of f env = v.
Proof. unfold value_of. by intros ->. Qed.

Lemma resolves_true (f : field) :
  resolves f env = true <-> exists v, resolve f env = inr v.
Proof.
  unfold resolves. destruct (resolve f env) as [e|v].
  - split; [done|]. by intros [v ?].
  - split; [|done]. by exists v.
Qed.

Lemma resolves_false (f : field) :
  resolves f env = false <-> exists e, resolve f env = inl e.
Proof.
  unfold resolves. destruct (resolve f env) as [e|v].
  - split; [|done]. by exists e.
  - split; [done|]. by intros [e ?].
Qed.

(** When every field of [order] resolves, so does the whole order. *)
Lemma resolve_in_order_ok (order : list field) :
  forallb (fun f => resolves f env) order = true ->
  resolve_in_order order env = inr (items_of env order).
Proof.
  induction order as [|f rest IH]; simpl; [done|].
  intros H. apply andb_true_iff in H as [Hf Hr].
  unfold mbind, M_bind, mret, M_ret. unfold value_of.
  apply resolves_true in Hf as [v Hv]. rewrite Hv.
  by rewrite (IH Hr).
Qed.

(** The error of an order is the error of its first field that fails. *)
Lemma resolve_in_order_first (pre post : list field) (f : field) (e : exn) :
  forallb (fun g => resolves g env) pre = true ->
  resolve f env = inl e ->
  resolve_in_order (pre ++ f :: post) env = inl e.
Proof.
  intros Hpre Hf. induction pre as [|g pre IH]; simpl.
  - unfold mbind, M_bind. by rewrite Hf.
  - simpl in Hpre. apply andb_true_iff in Hpre as [Hg Hpre].
    apply resolves_true in Hg as [v Hv].
    unfold mbind, M_bind. rewrite Hv.
    unfold mbind, M_bind in IH. by rewrite (IH Hpre).
Qed.

(** An order either resolves as a whole or splits at its first failure. *)
Lemma order_splits (order : list field) :
  forallb (fun f => resolves f env) order = true \/
  exists pre f post e,
    order = pre ++ f :: post /\
    forallb (fun g => resolves g env) pre = true /\
    resolve f env = inl e.
Proof.
  induction order as [|f rest IH]; [by left|].
  destruct (resolve f env) as [e|v] eqn:Hf.
  - right. by exists [], f, rest, e.
  - destruct IH as [IH | (pre & g & post & e & -> & Hpre & Hg)].
    + left. simpl. rewrite IH. unfold resolves. by rewrite Hf.
    + right. exists (f :: pre), g, post, e. repeat split; try done.
      simpl. rewrite Hpre. unfold resolves. by rewrite Hf.
Qed.

Lemma assemble_ok (order : list field) :
  forallb (fun f => resolves f env) order = true ->
  assemble order env = inr (list_to_map (items_of env order)).
Proof.
  intros H. unfold assemble, mbind, M_bind.
  by rewrite (resolve_in_order_ok order H).
Qed.

Lemma assemble_first (pre post : list field) (f : field) (e : exn) :
  forallb (fun g => resolves g env) pre = true ->
  resolve f env = inl e ->
  assemble (pre ++ f :: post) env = inl e.
Proof.
  intros Hpre Hf. unfold assemble, mbind, M_bind.
  by rewrite (resolve_in_order_first pre post f e Hpre Hf).
Qed.

Lemma items_of_keys (order : list field) :
  (items_of env order).*1 = key <$> order.
Proof. unfold items_of. induction order; simpl; [done|by f_equal]. Qed.

#[local] Instance key_inj : Inj (=) (=) key.
Proof. intros f g H. destruct f, g; (done || discriminate H). Qed.

Lemma source_order_NoDup : NoDup source_order.
Proof. compute_done. Qed.

Lemma all_fields_in_source_order (f : field) : f ∈ source_order.
Proof. destruct f; compute_done. Qed.

Lemma all_resolve_perm (o1 o2 : list field) :
  o1 ≡ₚ o2 ->
  forallb (fun f => resolves f env) o1 = forallb (fun f => resolves f env) o2.
Proof.
  intros P. apply eq_true_iff_eq. rewrite !forallb_forall.
  split; intros H f Hf; apply H.
  - by apply (Permutation_in _ (Permutation_sym P)).
  - by apply (Permutation_in _ P).
Qed.

Lemma all_resolve_elem (order : list field) (f : field) :
  forallb (fun g => resolves g env) order = true -> f ∈ order ->
  resolves f env = true.
Proof.
  intros H Hf. rewrite forallb_forall in H. apply H. by apply list_elem_of_In.
Qed.

(** The dictionary does not depend on the order of a permutation of the
    fields. *)
Lemma items_perm (order : list field) :
  order ≡ₚ source_order ->
  (list_to_map (items_of env order) : gmap string value)
  = list_to_map (items_of env source_order).
Proof.
  intros P. apply list_to_map_proper.
  - rewrite items_of_keys. apply (NoDup_fmap_2 key).
    rewrite P. apply source_order_NoDup.
  - unfold items_of. by rewrite P.
Qed.

(** The two outcomes of the assembler. *)
Lemma assemble_cases (order : list field) :
  (forallb (fun f => resolves f env) order = true /\
   assemble order env = inr (list_to_map (items_of env order))) \/
  (exists pre f post e,
     order = pre ++ f :: post /\
     forallb (fun g => resolves g env) pre = true /\
     resolve f env = inl e /\
     assemble order env = inl e).
Proof.
  destruct (order_splits order) as [H | (pre & f & post & e & -> & Hpre & Hf)].
  - left. split; [done|by apply assemble_ok].
  - right. exists pre, f, post, e. repeat split; try done.
    by apply assemble_first.
Qed.

(** A field that fails makes every order that holds it fail. *)
Lemma failing_field (order : list field) (f : field) (e : exn) :
  f ∈ order -> resolve f env = inl e ->
  forallb (fun g => resolves g env) order = false.
Proof.
  intros Hin Hf. apply not_true_is_false. intros H.
  pose proof (all_resolve_elem order f H Hin) as Hr.
  unfold resolves in Hr. by rewrite Hf in Hr.
Qed.

(** When one field only fails, its error is the error of every order. *)
Lemma single_failure (order : list field) (f : field) (e : exn) :
  f ∈ order ->
  resolve f env = inl e ->
  (forall g, g <> f -> resolves g env = true) ->
  assemble order env = inl e.
Proof.
  intros Hin Hf Hothers.
  destruct (assemble_cases order)
    as [[H _] | (pre & g & post & e' & -> & Hpre & Hg & Ha)].
  - by rewrite (failing_field order f e Hin Hf) in H.
  - destruct (decide (g = f)) as [->|Hne].
    + congruence.
    + pose proof (Hothers g Hne) as Hr. unfold resolves in Hr. by rewrite Hg in Hr.
Qed.

(** *** What a successful [get_config] returns *)

Lemma get_config_inr (cfg : gmap string value) :
  get_config env = inr cfg ->
  forallb (fun f => resolves f env) source_order = true /\
  cfg = list_to_map (items_of env source_order).
Proof.
  rewrite get_config_assemble. intros H.
  destruct (assemble_cases source_order)
    as [[Hall Ha] | (pre & g & post & e' & _ & _ & _ & Ha)]; [|congruence].
  split; [done|congruence].
Qed.

Lemma get_config_resolves (cfg : gmap string value) (f : field) :
  get_config env = inr cfg -> exists v, resolve f env = inr v.
Proof.
  intros H. apply get_config_inr in H as [Hall _].
  apply resolves_true.
  apply (all_resolve_elem source_order f Hall), all_fields_in_source_order.
Qed.

Lemma get_config_lookup (cfg : gmap string value) (f : field) :
  get_config env = inr cfg -> cfg !! key f = Some (value_of f env).
Proof.
  intros H. apply get_config_inr in H as [_ ->].
  apply elem_of_list_to_map_1.
  - rewrite items_of_keys. apply (NoDup_fmap_2 key), source_order_NoDup.
  - unfold items_of.
    apply (list_elem_of_fmap_2 (fun f => (key f, value_of f env))).
    apply all_fields_in_source_order.
Qed.

Lemma get_config_lookup_inv (cfg : gmap string value) (k : string) (v : value) :
  get_config env = inr cfg -> cfg !! k = Some v ->
  exists f, k = key f /\ v = value_of f env.
Proof.
  intros H Hk. apply get_config_inr in H as [_ ->].
  apply elem_of_list_to_map_2 in Hk. unfold items_of in Hk.
  apply list_elem_of_fmap in Hk as (f & E & _). exists f. by inversion E.
Qed.

End Orders.

(** ** Properties of the assembly *)

Section AssemblyFacts.
Import Schema.

Lemma resolve_lock_key (env : gmap string string) :
  resolve LOCK_KEY env =
  match env !! "LOCK_KEY" with
  | None => inl (MissingRequired "LOCK_KEY")
  | Some raw =>
      if PyStr.blank raw then inl (MissingRequired "LOCK_KEY") else inr (VStr raw)
  end.
Proof.
  unfold resolve, mbind, M_bind. rewrite get_required_unfold.
  destruct (env !! "LOCK_KEY") as [raw|]; [|done].
  by destruct (PyStr.blank raw).
Qed.

(** The optional strings and the boolean always resolve. *)
Lemma resolves_always (env : gmap string string) (f : field) :
  f ∈ [REDIS_HOST; REDIS_PASSWORD; INSTANCE_ID; REDIS_RETRY_ON_TIMEOUT] ->
  resolves f env = true.
Proof.
  intros H. repeat (apply elem_of_cons in H as [->|H]; [reflexivity|]).
  by apply elem_of_nil in H.
Qed.

End AssemblyFacts.

(** C1. When LOCK_KEY is absent, or present but blank (as the empty string
    and the string of three spaces are), [get_config] raises the
    MissingRequired error that names LOCK_KEY, whatever the other settings
    are, and returns no dictionary. *)
Theorem lock_key_required (env : gmap string string) :
  env !! "LOCK_KEY" = None \/
  (exists raw, env !! "LOCK_KEY" = Some raw /\ PyStr.blank raw = true) ->
  get_config env = inl (MissingRequired "LOCK_KEY") /\
  PyStr.contains (required_msg "LOCK_KEY") "LOCK_KEY" /\
  (forall cfg, get_config env <> inr cfg) /\
  PyStr.blank "" = true /\ PyStr.blank "   " = true.
Proof.
  intros H.
  assert (E : get_config env = inl (MissingRequired "LOCK_KEY")).
  { rewrite get_config_assemble.
    apply (assemble_first env [] _ Schema.LOCK_KEY); [done|].
    rewrite resolve_lock_key.
    destruct H as [-> | (raw & -> & ->)]; done. }
  repeat split; try done.
  - apply contains_mid.
  - intros cfg. by rewrite E.
Qed.

Lemma lock_key_required_witness :
  Env.blank_lock_key !! "LOCK_KEY" = Some "   " /\
  PyStr.blank "   " = true /\
  get_config Env.blank_lock_key = inl (MissingRequired "LOCK_KEY").
Proof.
  split; [reflexivity|]. split; [reflexivity|].
  apply (lock_key_required Env.blank_lock_key).
  right. exists "   ". split; reflexivity.
Defined.

Example lock_key_unset : get_config ∅ = inl (MissingRequired "LOCK_KEY").
Proof. reflexivity. Qed.

Example lock_key_empty :
  get_config (<["LOCK_KEY" := ""]> ∅) = inl (MissingRequired "LOCK_KEY").
Proof. reflexivity. Qed.




Example float_values :
  map PyFloat.float ["1.0"; "2.5"; " 0.1 "; "1e3"; "1_000.5"; "-0"; "inf"; "NaN";
                     "1e999"; "abc"; ""; "1e"; "."; "0x10"]
  = [Some float_1_0;
     Some (S754_finite false 5629499534213120 (-51));
     Some (S754_finite false 7205759403792794 (-56));
     Some (S754_finite false 8796093022208000 (-43));
     Some (S754_finite false 8800491068719104 (-43));
     Some (S754_zero true);
     Some (S754_infinity false);
     Some S754_nan;
     Some (S754_infinity false);
     None; None; None; None; None].
Proof. vm_compute. reflexivity. Qed.

(** C6. With LOCK_KEY=svc-a and REDIS_PORT=6380 and nothing else set,
    [get_config] returns a dictionary with LOCK_KEY "svc-a", REDIS_PORT the
    integer 6380, REDIS_HOST "redis", LOCK_TTL_MS 15000 and
    REDIS_RETRY_ON_TIMEOUT true. *)
Theorem svc_a_resolves :
  exists cfg,
    get_config Env.svc_a = inr cfg /\
    cfg !! "LOCK_KEY" = Some (VStr "svc-a") /\
    cfg !! "REDIS_PORT" = Some (VInt 6380) /\
    cfg !! "REDIS_HOST" = Some (VStr "redis") /\
    cfg !! "LOCK_TTL_MS" = Some (VInt 15000) /\
    cfg !! "REDIS_RETRY_ON_TIMEOUT" = Some (VBool true).
Proof.
  eexists. split; [reflexivity|].
  repeat split; reflexivity.
Qed.

(** ** The order of resolution *)

Section Independence.
Import Schema.

(** Each field reads its own setting and nothing else. *)
Lemma resolve_depends (f : field) (env env' : gmap string string) :
  env !! key f = env' !! key f -> resolve f env = resolve f env'.
Proof.
  intros H. destruct f; simpl in H;
    unfold resolve, mbind, M_bind, mret, M_ret, getenv;
    rewrite ?get_int_unfold, ?get_float_unfold, ?get_required_unfold, H; done.
Qed.

Lemma port_first_perm : port_first ≡ₚ source_order.
Proof. apply Permutation_middle. Qed.

End Independence.

(** C7, as the code has it. For every environment and every reordering of
    the twelve field resolutions, the reordered assembler returns a
    dictionary exactly when [get_config] does, and then the same one; it
    fails exactly when [get_config] fails. Its error is the error of the
    first field, in the chosen order, whose resolution fails; this is the
    error of [get_config] when one field only fails. *)
Theorem assemble_any_order (env : gmap string string) (order : list Schema.field) :
  order ≡ₚ Schema.source_order ->
  (forall cfg, Schema.assemble order env = inr cfg <-> get_config env = inr cfg) /\
  ((exists e, Schema.assemble order env = inl e) <-> (exists e, get_config env = inl e)) /\
  (forall e, Schema.assemble order env = inl e ->
     exists pre f post,
       order = pre ++ f :: post /\
       forallb (fun g => Schema.resolves g env) pre = true /\
       Schema.resolve f env = inl e) /\
  (forall f e,
     Schema.resolve f env = inl e ->
     (forall g, g <> f -> Schema.resolves g env = true) ->
     Schema.assemble order env = inl e /\ get_config env = inl e).
Proof.
  intros P. rewrite get_config_assemble.
  pose proof (all_resolve_perm env _ _ P) as Hall.
  pose proof (items_perm env order P) as Hitems.
  destruct (assemble_cases env order)
    as [[Ho Ao] | (pre & f & post & e & Eo & Hpre & Hf & Ao)];
  destruct (assemble_cases env Schema.source_order)
    as [[Hs As] | (pre' & f' & post' & e' & Es & Hpre' & Hf' & As)].
  - (* both resolve *)
    rewrite Ao, As, Hitems.
    split; [done|]. split; [split; intros [? ?]; done|]. split; [done|].
    intros g e Hg _. exfalso.
    pose proof (all_resolve_elem env _ g Hs (all_fields_in_source_order g)) as Hr.
    unfold Schema.resolves in Hr. by rewrite Hg in Hr.
  - (* the source order fails, the other not: impossible *)
    exfalso. rewrite Ho in Hall.
    rewrite (failing_field env Schema.source_order f' e') in Hall; [done| |done].
    apply all_fields_in_source_order.
  - (* the other order fails, the source order not: impossible *)
    exfalso. rewrite Hs in Hall.
    rewrite (failing_field env order f e) in Hall; [done| |done].
    rewrite P. apply all_fields_in_source_order.
  - (* both fail *)
    rewrite Ao, As.
    split; [done|]. split; [split; intros _; eauto|].
    split; [intros e0 [= <-]; by exists pre, f, post|].
    intros g e0 Hg Hothers. split.
    + rewrite <- Ao. apply (single_failure env order g e0); [|done..].
      rewrite P. apply all_fields_in_source_order.
    + rewrite <- As. apply (single_failure env Schema.source_order g e0); [|done..].
      apply all_fields_in_source_order.
Qed.

Lemma assemble_any_order_witness :
  Schema.port_first ≡ₚ Schema.source_order /\
  exists cfg,
    Schema.assemble Schema.port_first Env.svc_a = inr cfg /\
    get_config Env.svc_a = inr cfg.
Proof.
  split; [apply port_first_perm|].
  eexists. split; [|reflexivity].
  apply (proj1 (assemble_any_order Env.svc_a Schema.port_first port_first_perm)).
  reflexivity.
Defined.

(** C7, as stated, fails: with LOCK_KEY unset and REDIS_PORT=abc two fields
    fail; [get_config] reports the missing LOCK_KEY, and the assembler that
    resolves the port first reports the invalid port. *)
Lemma reorder_changes_error :
  Schema.port_first ≡ₚ Schema.source_order /\
  get_config Env.no_key_bad_port = inl (MissingRequired "LOCK_KEY") /\
  Schema.assemble Schema.port_first Env.no_key_bad_port
  = inl (InvalidInteger "REDIS_PORT" "abc") /\
  Schema.assemble Schema.port_first Env.no_key_bad_port
  <> get_config Env.no_key_bad_port.
Proof.
  split; [apply port_first_perm|].
  split; [reflexivity|]. split; [reflexivity|].
  discriminate.
Qed.

(** ** Two resolutions of the same environment *)

Section Twice.
Import Schema.

Lemma SFeqb_refl (x : spec_float) : x <> S754_nan -> SFeqb x x = true.
Proof.
  intros Hx. unfold SFeqb, SFcompare.
  destruct x as [s|s| |s m e]; [done| by destruct s | done |].
  rewrite Z.compare_refl, Pos.compare_cont_refl. by destruct s.
Qed.

(** A value equals itself unless it is the float not-a-number. *)
Lemma value_eq_refl (v : value) :
  value_eq v v = true <-> v <> VFloat S754_nan.
Proof.
  destruct v as [|s|z|x|b]; simpl.
  - done.
  - by rewrite String.eqb_refl.
  - by rewrite Z.eqb_refl.
  - unfold PyFloat.eqb. split.
    + intros H [= ->]. done.
    + intros H. apply SFeqb_refl. congruence.
  - by rewrite Z.eqb_refl.
Qed.

Example value_eq_samples :
  map (fun p => value_eq p.1 p.2)
      [(VInt 1, VFloat float_1_0); (VBool true, VInt 1); (VNone, VInt 0);
       (VStr "1", VInt 1); (VFloat (S754_zero true), VFloat (S754_zero false));
       (VFloat S754_nan, VFloat S754_nan)]
  = [true; true; false; false; true; false].
Proof. reflexivity. Qed.

(** A dictionary equals a copy of itself when each of its values equals
    itself. *)
Lemma dict_eq_refl (a : gmap string value) :
  dict_eq a a = true <-> forall k v, a !! k = Some v -> value_eq v v = true.
Proof.
  unfold dict_eq. rewrite Nat.eqb_refl. simpl. rewrite forallb_forall. split.
  - intros H k v Hk. specialize (H (k, v)). simpl in H. rewrite Hk in H.
    apply H. by apply list_elem_of_In, elem_of_map_to_list.
  - intros H [k v] Hin. simpl.
    apply list_elem_of_In, elem_of_map_to_list in Hin. rewrite Hin. by apply (H k).
Qed.

(** The fields that are no timeouts never hold a float. *)
Lemma value_of_not_float (env : gmap string string) (f : field) (x : spec_float) :
  f <> REDIS_SOCKET_CONNECT_TIMEOUT -> f <> REDIS_SOCKET_TIMEOUT ->
  value_of f env <> VFloat x.
Proof.
  intros N1 N2. unfold value_of.
  destruct f; try done;
    unfold resolve, mbind, M_bind, mret, M_ret, getenv;
    repeat match goal with
           | |- context [get_required ?n env] => destruct (get_required n env)
           | |- context [get_int ?n ?d env] => destruct (get_int n d env)
           | |- context [env !! ?k] => destruct (env !! k)
           end; done.
Qed.

Lemma get_config_twice_inr (env : gmap string string) (a b : gmap string value) :
  get_config_twice env = inr (a, b) ->
  get_config env = inr a /\ get_config env = inr b.
Proof.
  unfold get_config_twice, mbind, M_bind, mret, M_ret.
  destruct (get_config env) as [e|cfg]; [done|].
  by intros [= -> ->].
Qed.

End Twice.

(** C8, as the code has it. When [get_config] succeeds, two calls on the
    same environment return dictionaries with the same keys and the same
    value under each key; the two dictionaries compare equal with [==]
    exactly when neither timeout is the float not-a-number, which does not
    equal itself. *)
Theorem resolve_twice (env : gmap string string) (a b : gmap string value) :
  get_config_twice env = inr (a, b) ->
  a = b /\
  (dict_eq a b = true <->
   a !! "REDIS_SOCKET_CONNECT_TIMEOUT" <> Some (VFloat S754_nan) /\
   a !! "REDIS_SOCKET_TIMEOUT" <> Some (VFloat S754_nan)).
Proof.
  intros H. apply get_config_twice_inr in H as [Ha Hb].
  assert (b = a) as -> by congruence. split; [done|].
  pose proof (get_config_lookup env a Schema.REDIS_SOCKET_CONNECT_TIMEOUT Ha) as Hc.
  pose proof (get_config_lookup env a Schema.REDIS_SOCKET_TIMEOUT Ha) as Hs.
  simpl Schema.key in Hc, Hs.
  rewrite dict_eq_refl. split.
  - intros H. split.
    + rewrite Hc. intros [= E]. apply H in Hc. apply value_eq_refl in Hc. congruence.
    + rewrite Hs. intros [= E]. apply H in Hs. apply value_eq_refl in Hs. congruence.
  - intros [Nc Ns] k v Hk. apply value_eq_refl. intros ->.
    destruct (get_config_lookup_inv env a k _ Ha Hk) as (f & -> & Hv).
    destruct (decide (f = Schema.REDIS_SOCKET_CONNECT_TIMEOUT)) as [->|N1].
    { congruence. }
    destruct (decide (f = Schema.REDIS_SOCKET_TIMEOUT)) as [->|N2].
    { congruence. }
    symmetry in Hv. by apply value_of_not_float in Hv.
Qed.

Lemma resolve_twice_witness :
  exists a b,
    get_config_twice Env.svc_a = inr (a, b) /\ a = b /\ dict_eq a b = true.
Proof.
  eexists _, _. split; [reflexivity|].
  match goal with
  | |- ?a = ?b /\ _ =>
      destruct (resolve_twice Env.svc_a a b eq_refl) as [E [_ D]]
  end.
  split; [exact E|]. apply D. split; discriminate.
Defined.

(** C8, as stated, fails: with REDIS_SOCKET_TIMEOUT=nan the resolution
    succeeds, and the dictionaries of two calls do not compare equal. *)
Lemma nan_timeout_not_equal :
  exists a b,
    get_config_twice Env.timeout_nan = inr (a, b) /\
    a !! "REDIS_SOCKET_TIMEOUT" = Some (VFloat S754_nan) /\
    b !! "REDIS_SOCKET_TIMEOUT" = Some (VFloat S754_nan) /\
    dict_eq a b = false.
Proof.
  eexists _, _. split; [reflexivity|].
  split; [reflexivity|]. split; [reflexivity|].
  vm_compute. reflexivity.
Qed.

(** ** The optional strings *)

Section Optionals.
Import Schema.

Context (env : gmap string string).

Lemma value_of_insert_ne (g : field) (k v : string) :
  key g <> k -> value_of g (<[k := v]> env) = value_of g env.
Proof.
  intros N. unfold value_of.
  rewrite (resolve_depends g (<[k := v]> env) env); [done|].
  by apply lookup_insert_ne.
Qed.

Lemma resolves_insert_ne (g : field) (k v : string) :
  key g <> k -> resolves g (<[k := v]> env) = resolves g env.
Proof.
  intros N. unfold resolves.
  rewrite (resolve_depends g (<[k := v]> env) env); [done|].
  by apply lookup_insert_ne.
Qed.

(** An optional string that is set resolves to the string that was set. *)
Lemma value_of_insert_optional (f : field) (v : string) :
  f ∈ [REDIS_HOST; INSTANCE_ID; REDIS_PASSWORD] ->
  value_of f (<[key f := v]> env) = VStr v.
Proof.
  intros H. repeat (apply elem_of_cons in H as [->|H]);
    [| | |by apply elem_of_nil in H];
    unfold value_of, resolve, mbind, M_bind, mret, M_ret, getenv; simpl key;
    by rewrite lookup_insert_eq.
Qed.

(** Setting an optional string keeps every field resolving. *)
Lemma insert_optional_resolves (f : field) (v : string) (order : list field) :
  f ∈ [REDIS_HOST; INSTANCE_ID; REDIS_PASSWORD] ->
  forallb (fun g => resolves g env) order = true ->
  forallb (fun g => resolves g (<[key f := v]> env)) order = true.
Proof.
  intros Hf. rewrite !forallb_forall. intros H g Hg.
  destruct (decide (g = f)) as [->|N].
  - apply resolves_always.
    repeat (apply elem_of_cons in Hf as [->|Hf]); [| | |by apply elem_of_nil in Hf];
      compute_done.
  - rewrite resolves_insert_ne; [by apply H|].
    intros E. by apply key_inj in E.
Qed.

(** The dictionary after setting an optional string. *)
Lemma insert_optional_items (f : field) (v : string) :
  f ∈ [REDIS_HOST; INSTANCE_ID; REDIS_PASSWORD] ->
  (list_to_map (items_of (<[key f := v]> env) source_order) : gmap string value)
  = <[key f := VStr v]> (list_to_map (items_of env source_order)).
Proof.
  intros Hf. pose proof (value_of_insert_optional f v Hf) as Hv.
  repeat (apply elem_of_cons in Hf as [->|Hf]); [| | |by apply elem_of_nil in Hf];
    unfold items_of, source_order; simpl fmap; simpl key in *;
    rewrite Hv, !value_of_insert_ne by done;
    repeat match goal with
           | |- context [value_of ?g env] =>
               let x := fresh "x" in generalize (value_of g env); intros x
           end;
    reflexivity.
Qed.

End Optionals.

(** C9. The optional strings REDIS_HOST, INSTANCE_ID and REDIS_PASSWORD are
    stored as they are in the environment, blank or not: the dictionary
    holds the present value, and for an absent setting "redis" for
    REDIS_HOST and None, under its key, for the other two. Setting one of
    them to any string never makes the resolution fail; it changes that one
    entry of the dictionary to the string set. *)
Theorem optional_strings_verbatim (env : gmap string string) (cfg : gmap string value) :
  get_config env = inr cfg ->
  cfg !! "REDIS_HOST" = Some (VStr (default "redis" (env !! "REDIS_HOST"))) /\
  cfg !! "INSTANCE_ID" = Some (of_optional_str (env !! "INSTANCE_ID")) /\
  cfg !! "REDIS_PASSWORD" = Some (of_optional_str (env !! "REDIS_PASSWORD")) /\
  (forall k v : string,
     k ∈ ["REDIS_HOST"; "INSTANCE_ID"; "REDIS_PASSWORD"] ->
     get_config (<[k := v]> env) = inr (<[k := VStr v]> cfg)).
Proof.
  intros H.
  pose proof (get_config_lookup env cfg Schema.REDIS_HOST H) as Hh.
  pose proof (get_config_lookup env cfg Schema.INSTANCE_ID H) as Hi.
  pose proof (get_config_lookup env cfg Schema.REDIS_PASSWORD H) as Hp.
  unfold Schema.value_of, Schema.resolve, mbind, M_bind, mret, M_ret, getenv in Hh, Hi, Hp.
  simpl Schema.key in Hh, Hi, Hp.
  split; [|split; [|split]].
  - rewrite Hh. by destruct (env !! "REDIS_HOST").
  - rewrite Hi. by destruct (env !! "INSTANCE_ID").
  - rewrite Hp. by destruct (env !! "REDIS_PASSWORD").
  - intros k v Hk.
    assert (exists f, k = Schema.key f /\
              f ∈ [Schema.REDIS_HOST; Schema.INSTANCE_ID; Schema.REDIS_PASSWORD])
      as (f & -> & Hf).
    { repeat (apply elem_of_cons in Hk as [->|Hk]); [| | |by apply elem_of_nil in Hk].
      - exists Schema.REDIS_HOST. split; [done|compute_done].
      - exists Schema.INSTANCE_ID. split; [done|compute_done].
      - exists Schema.REDIS_PASSWORD. split; [done|compute_done]. }
    apply get_config_inr in H as [Hall ->].
    rewrite get_config_assemble, assemble_ok.
    + f_equal. by apply insert_optional_items.
    + by apply insert_optional_resolves.
Qed.

Lemma optional_strings_verbatim_witness :
  exists cfg,
    get_config Env.blank_optionals = inr cfg /\
    cfg !! "REDIS_HOST" = Some (VStr "") /\
    cfg !! "INSTANCE_ID" = Some VNone /\
    cfg !! "REDIS_PASSWORD" = Some (VStr "  ").
Proof.
  eexists. split; [reflexivity|].
  match goal with
  | |- ?c !! _ = _ /\ _ =>
      destruct (optional_strings_verbatim Env.blank_optionals c eq_refl)
        as (Hh & Hi & Hp & _)
  end.
  split; [exact Hh|]. split; [exact Hi|exact Hp].
Defined.

(** * Further properties of [get_config] *)

(** ** What a successful resolution returns *)

Section Shape.
Import Schema.

Context (env : gmap string string).

Lemma key_in_names (f : field) : key f ∈ Table.names.
Proof. destruct f; compute_done. Qed.

Lemma names_are_keys (k : string) : k ∈ Table.names -> exists f, k = key f.
Proof.
  intros H. unfold Table.names in H.
  repeat (apply elem_of_cons in H as [->|H]); [..|by apply elem_of_nil in H].
  - by exists INSTANCE_ID.
  - by exists LOCK_KEY.
  - by exists LOCK_TTL_MS.
  - by exists LOCK_RENEW_EVERY_MS.
  - by exists STANDBY_SLEEP_MS.
  - by exists REDIS_HOST.
  - by exists REDIS_PORT.
  - by exists REDIS_DB.
  - by exists REDIS_PASSWORD.
  - by exists REDIS_SOCKET_CONNECT_TIMEOUT.
  - by exists REDIS_SOCKET_TIMEOUT.
  - by exists REDIS_RETRY_ON_TIMEOUT.
Qed.

(** A field resolves exactly on the raw values it accepts. *)
Lemma resolves_accepts (f : field) :
  resolves f env = Table.accepts f (env !! key f).
Proof.
  destruct f; unfold resolves, resolve, mbind, M_bind, mret, M_ret, getenv;
    rewrite ?get_int_unfold, ?get_float_unfold, ?get_required_unfold;
    simpl key; unfold Table.accepts;
    repeat match goal with
           | |- context [env !! ?k] => destruct (env !! k) as [raw|]
           end; try done.
  - by destruct (PyStr.blank raw).
  - by destruct (PyInt.int raw).
  - by destruct (PyInt.int raw).
  - by destruct (PyInt.int raw).
  - by destruct (PyInt.int raw).
  - by destruct (PyInt.int raw).
  - by destruct (PyFloat.float raw).
  - by destruct (PyFloat.float raw).
Qed.

Lemma get_config_succeeds :
  (exists cfg, get_config env = inr cfg) <->
  forallb (fun f => resolves f env) source_order = true.
Proof.
  split.
  - intros [cfg H]. by apply get_config_inr in H as [H _].
  - intros H. rewrite get_config_assemble, (assemble_ok env _ H). eauto.
Qed.

Lemma value_of_resolved (f : field) (cfg : gmap string value) :
  get_config env = inr cfg ->
  exists v, resolve f env = inr v /\ cfg !! key f = Some v.
Proof.
  intros H. destruct (get_config_resolves env cfg f H) as [v Hv].
  exists v. split; [done|].
  rewrite (get_config_lookup env cfg f H). f_equal. by apply resolve_value_of.
Qed.

End Shape.

(** X1. A dictionary returned by [get_config] has the twelve keys of its
    display and no other: whatever the environment holds, no further key is
    added and none is left out. *)
Theorem config_keys (env : gmap string string) (cfg : gmap string value) :
  get_config env = inr cfg ->
  (forall k : string, is_Some (cfg !! k) <-> k ∈ Table.names) /\
  size cfg = 12%nat.
Proof.
  intros H. split.
  - intros k. split.
    + intros [v Hv].
      destruct (get_config_lookup_inv env cfg k v H Hv) as (f & -> & _).
      apply key_in_names.
    + intros Hk. apply names_are_keys in Hk as [f ->].
      rewrite (get_config_lookup env cfg f H). eauto.
  - apply get_config_inr in H as [_ ->].
    rewrite map_size_list_to_map.
    + reflexivity.
    + rewrite items_of_keys.
      apply (NoDup_fmap_2 (Inj0 := key_inj) Schema.key), source_order_NoDup.
Qed.

Lemma config_keys_witness :
  exists cfg,
    get_config Samples.svc_a_in_shell = inr cfg /\
    size cfg = 12%nat /\
    cfg !! "PATH" = None /\
    is_Some (cfg !! "REDIS_DB").
Proof.
  eexists. split; [reflexivity|].
  match goal with
  | |- size ?c = _ /\ _ =>
      destruct (config_keys Samples.svc_a_in_shell c eq_refl) as [K S]
  end.
  split; [exact S|]. split; [reflexivity|].
  apply K. compute_done.
Defined.

(** The value under the key of field [f], by cases on what the call that
    resolves [f] returned. *)
Ltac field_value R f :=
  let v := fresh "v" in
  let Hv := fresh "Hv" in
  let Hc := fresh "Hc" in
  destruct (R f) as (v & Hv & Hc);
  simpl Schema.key in Hc; rewrite Hc; clear Hc;
  unfold Schema.resolve, mbind, M_bind, mret, M_ret, getenv in Hv;
  repeat match type of Hv with
         | context [get_required ?n ?e] => destruct (get_required n e)
         | context [get_int ?n ?d ?e] => destruct (get_int n d e)
         | context [get_float ?n ?d ?e] => destruct (get_float n d e)
         | context [?e !! ?k] => destruct (e !! k)
         end;
  simplify_eq; eauto.

(** X2. In a dictionary returned by [get_config] each key holds a value of
    one fixed type: LOCK_KEY and REDIS_HOST a string, the five settings read
    with [get_int] an integer, the two timeouts a float,
    REDIS_RETRY_ON_TIMEOUT a boolean, INSTANCE_ID and REDIS_PASSWORD a string
    or None. *)
Theorem config_types (env : gmap string string) (cfg : gmap string value) :
  get_config env = inr cfg ->
  (exists s, cfg !! "LOCK_KEY" = Some (VStr s)) /\
  (exists s, cfg !! "REDIS_HOST" = Some (VStr s)) /\
  (forall k, k ∈ Table.int_names -> exists z, cfg !! k = Some (VInt z)) /\
  (forall k, k ∈ Table.float_names -> exists x, cfg !! k = Some (VFloat x)) /\
  (exists b, cfg !! "REDIS_RETRY_ON_TIMEOUT" = Some (VBool b)) /\
  (forall k, k ∈ ["INSTANCE_ID"; "REDIS_PASSWORD"] ->
     cfg !! k = Some VNone \/ exists s, cfg !! k = Some (VStr s)).
Proof.
  intros H.
  assert (R : forall f, exists v, Schema.resolve f env = inr v /\
                                  cfg !! Schema.key f = Some v)
    by (intros f; by apply value_of_resolved).
  split; [|split; [|split; [|split; [|split]]]].
  - field_value R Schema.LOCK_KEY.
  - field_value R Schema.REDIS_HOST.
  - intros k Hk. unfold Table.int_names in Hk.
    repeat (apply elem_of_cons in Hk as [->|Hk]); [..|by apply elem_of_nil in Hk].
    + field_value R Schema.LOCK_TTL_MS.
    + field_value R Schema.LOCK_RENEW_EVERY_MS.
    + field_value R Schema.STANDBY_SLEEP_MS.
    + field_value R Schema.REDIS_PORT.
    + field_value R Schema.REDIS_DB.
  - intros k Hk. unfold Table.float_names in Hk.
    repeat (apply elem_of_cons in Hk as [->|Hk]); [..|by apply elem_of_nil in Hk].
    + field_value R Schema.REDIS_SOCKET_CONNECT_TIMEOUT.
    + field_value R Schema.REDIS_SOCKET_TIMEOUT.
  - field_value R Schema.REDIS_RETRY_ON_TIMEOUT.
  - intros k Hk.
    repeat (apply elem_of_cons in Hk as [->|Hk]); [..|by apply elem_of_nil in Hk].
    + field_value R Schema.INSTANCE_ID.
    + field_value R Schema.REDIS_PASSWORD.
Qed.

Lemma config_types_witness :
  exists cfg,
    get_config Samples.full = inr cfg /\
    (exists z, cfg !! "REDIS_PORT" = Some (VInt z)) /\
    (exists x, cfg !! "REDIS_SOCKET_TIMEOUT" = Some (VFloat x)).
Proof.
  eexists. split; [reflexivity|].
  match goal with
  | |- (exists z, ?c !! _ = _) /\ _ =>
      destruct (config_types Samples.full c eq_refl) as (_ & _ & I & F & _)
  end.
  split; [apply I; compute_done|apply F; compute_done].
Defined.

(** X3. A dictionary returned by [get_config] holds under LOCK_KEY the
    value of the environment as it is there, surrounding whitespace
    included, and that value is not blank. *)
Theorem lock_key_stored (env : gmap string string) (cfg : gmap string value) :
  get_config env = inr cfg ->
  exists raw,
    env !! "LOCK_KEY" = Some raw /\
    PyStr.strip raw <> "" /\
    cfg !! "LOCK_KEY" = Some (VStr raw).
Proof.
  intros H.
  destruct (value_of_resolved env Schema.LOCK_KEY cfg H) as (v & Hv & Hc).
  rewrite resolve_lock_key in Hv.
  destruct (env !! "LOCK_KEY") as [raw|]; [|done].
  destruct (PyStr.blank raw) eqn:B; [done|].
  exists raw. simplify_eq. repeat split; try done.
  intros E. apply strip_empty_iff in E. congruence.
Qed.

Lemma lock_key_stored_witness :
  exists cfg,
    get_config Samples.full = inr cfg /\
    cfg !! "LOCK_KEY" = Some (VStr " leader:svc-a ").
Proof.
  eexists. split; [reflexivity|].
  match goal with
  | |- ?c !! _ = _ =>
      destruct (lock_key_stored Samples.full c eq_refl) as (raw & E & _ & L)
  end.
  rewrite L. f_equal. f_equal. by injection E.
Defined.

(** ** When the resolution succeeds, and how it fails *)

Section Outcome.
Import Schema.

Context (env : gmap string string).

Lemma all_resolve_accepts :
  forallb (fun f => resolves f env) source_order = true <->
  forall f, Table.accepts f (env !! key f) = true.
Proof.
  rewrite forallb_forall. split.
  - intros H f. rewrite <- resolves_accepts. apply H.
    apply list_elem_of_In, all_fields_in_source_order.
  - intros H f _. rewrite resolves_accepts. apply H.
Qed.

(** The error of a field, by the kind of the field. *)
Lemma resolve_error (f : field) (e : exn) :
  resolve f env = inl e ->
  (f = LOCK_KEY /\ e = MissingRequired "LOCK_KEY" /\
   (env !! "LOCK_KEY" = None \/
    exists raw, env !! "LOCK_KEY" = Some raw /\ PyStr.strip raw = "")) \/
  (exists raw, key f ∈ Table.int_names /\ env !! key f = Some raw /\
               PyInt.int raw = None /\ e = InvalidInteger (key f) raw) \/
  (exists raw, key f ∈ Table.float_names /\ env !! key f = Some raw /\
               PyFloat.float raw = None /\ e = InvalidFloat (key f) raw).
Proof.
  destruct f; unfold resolve, mbind, M_bind, mret, M_ret, getenv;
    rewrite ?get_int_unfold, ?get_float_unfold, ?get_required_unfold; simpl key;
    repeat match goal with
           | |- context [env !! ?k] => destruct (env !! k) as [raw|] eqn:E
           end; try done.
  - destruct (PyStr.blank raw) eqn:B; [|done]. intros [= <-]. left.
    repeat split. right. exists raw. split; [done|]. by apply strip_empty_iff.
  - intros [= <-]. left. repeat split. by left.
  - destruct (PyInt.int raw) eqn:P; [done|]. intros [= <-]. right. left.
    exists raw. repeat split; try done. compute_done.
  - destruct (PyInt.int raw) eqn:P; [done|]. intros [= <-]. right. left.
    exists raw. repeat split; try done. compute_done.
  - destruct (PyInt.int raw) eqn:P; [done|]. intros [= <-]. right. left.
    exists raw. repeat split; try done. compute_done.
  - destruct (PyInt.int raw) eqn:P; [done|]. intros [= <-]. right. left.
    exists raw. repeat split; try done. compute_done.
  - destruct (PyInt.int raw) eqn:P; [done|]. intros [= <-]. right. left.
    exists raw. repeat split; try done. compute_done.
  - destruct (PyFloat.float raw) eqn:P; [done|]. intros [= <-]. right. right.
    exists raw. repeat split; try done. compute_done.
  - destruct (PyFloat.float raw) eqn:P; [done|]. intros [= <-]. right. right.
    exists raw. repeat split; try done. compute_done.
Qed.

Lemma resolve_in_order_ext (env' : gmap string string) (order : list field) :
  (forall f, resolve f env = resolve f env') ->
  resolve_in_order order env = resolve_in_order order env'.
Proof.
  intros H. induction order as [|f rest IH]; simpl; [done|].
  unfold mbind, M_bind. rewrite <- (H f).
  destruct (resolve f env); [done|].
  unfold mbind, M_bind in IH. by rewrite IH.
Qed.

End Outcome.

(** X4. [get_config] returns a dictionary exactly when LOCK_KEY is set to a
    value that [strip()] does not empty, each of the five integer settings
    is unset or read by [int], and each of the two timeouts is unset or read
    by [float]. No other setting can make it fail. *)
Theorem get_config_succeeds_iff (env : gmap string string) :
  (exists cfg, get_config env = inr cfg) <->
  (exists raw, env !! "LOCK_KEY" = Some raw /\ PyStr.strip raw <> "") /\
  (forall name raw, name ∈ Table.int_names -> env !! name = Some raw ->
     is_Some (PyInt.int raw)) /\
  (forall name raw, name ∈ Table.float_names -> env !! name = Some raw ->
     is_Some (PyFloat.float raw)).
Proof.
  rewrite get_config_succeeds, all_resolve_accepts. split.
  - intros H. split; [|split].
    + pose proof (H Schema.LOCK_KEY) as HL. simpl in HL.
      destruct (env !! "LOCK_KEY") as [raw|]; [|done].
      exists raw. split; [done|]. intros E. apply strip_empty_iff in E.
      by rewrite E in HL.
    + intros name raw Hn E. unfold Table.int_names in Hn.
      repeat (apply elem_of_cons in Hn as [->|Hn]); [..|by apply elem_of_nil in Hn].
      * pose proof (H Schema.LOCK_TTL_MS) as HF. simpl in HF. rewrite E in HF.
        by apply bool_decide_eq_true in HF.
      * pose proof (H Schema.LOCK_RENEW_EVERY_MS) as HF. simpl in HF. rewrite E in HF.
        by apply bool_decide_eq_true in HF.
      * pose proof (H Schema.STANDBY_SLEEP_MS) as HF. simpl in HF. rewrite E in HF.
        by apply bool_decide_eq_true in HF.
      * pose proof (H Schema.REDIS_PORT) as HF. simpl in HF. rewrite E in HF.
        by apply bool_decide_eq_true in HF.
      * pose proof (H Schema.REDIS_DB) as HF. simpl in HF. rewrite E in HF.
        by apply bool_decide_eq_true in HF.
    + intros name raw Hn E. unfold Table.float_names in Hn.
      repeat (apply elem_of_cons in Hn as [->|Hn]); [..|by apply elem_of_nil in Hn].
      * pose proof (H Schema.REDIS_SOCKET_CONNECT_TIMEOUT) as HF. simpl in HF.
        rewrite E in HF. by apply bool_decide_eq_true in HF.
      * pose proof (H Schema.REDIS_SOCKET_TIMEOUT) as HF. simpl in HF.
        rewrite E in HF. by apply bool_decide_eq_true in HF.
  - intros ((raw & EL & NB) & HI & HF) f.
    destruct f; simpl; try done.
    + rewrite EL. apply negb_true_iff, not_true_is_false.
      intros B. by apply strip_empty_iff in B.
    + destruct (env !! "LOCK_TTL_MS") as [r|] eqn:E; [|done].
      apply bool_decide_eq_true. apply (HI "LOCK_TTL_MS"); [compute_done|done].
    + destruct (env !! "LOCK_RENEW_EVERY_MS") as [r|] eqn:E; [|done].
      apply bool_decide_eq_true. apply (HI "LOCK_RENEW_EVERY_MS"); [compute_done|done].
    + destruct (env !! "STANDBY_SLEEP_MS") as [r|] eqn:E; [|done].
      apply bool_decide_eq_true. apply (HI "STANDBY_SLEEP_MS"); [compute_done|done].
    + destruct (env !! "REDIS_PORT") as [r|] eqn:E; [|done].
      apply bool_decide_eq_true. apply (HI "REDIS_PORT"); [compute_done|done].
    + destruct (env !! "REDIS_DB") as [r|] eqn:E; [|done].
      apply bool_decide_eq_true. apply (HI "REDIS_DB"); [compute_done|done].
    + destruct (env !! "REDIS_SOCKET_CONNECT_TIMEOUT") as [r|] eqn:E; [|done].
      apply bool_decide_eq_true.
      apply (HF "REDIS_SOCKET_CONNECT_TIMEOUT"); [compute_done|done].
    + destruct (env !! "REDIS_SOCKET_TIMEOUT") as [r|] eqn:E; [|done].
      apply bool_decide_eq_true.
      apply (HF "REDIS_SOCKET_TIMEOUT"); [compute_done|done].
Qed.

(** X5. An exception of [get_config] is one of eight and no other: the
    RuntimeError for LOCK_KEY, raised when LOCK_KEY is unset or emptied by
    [strip()]; or the ValueError of one of the five integer settings or of
    one of the two timeouts, for a raw value that is in the environment under
    that name and that [int], or [float], does not read. *)
Theorem get_config_errors (env : gmap string string) (e : exn) :
  get_config env = inl e ->
  (e = MissingRequired "LOCK_KEY" /\
   (env !! "LOCK_KEY" = None \/
    exists raw, env !! "LOCK_KEY" = Some raw /\ PyStr.strip raw = "")) \/
  (exists name raw, name ∈ Table.int_names /\ env !! name = Some raw /\
                    PyInt.int raw = None /\ e = InvalidInteger name raw) \/
  (exists name raw, name ∈ Table.float_names /\ env !! name = Some raw /\
                    PyFloat.float raw = None /\ e = InvalidFloat name raw).
Proof.
  rewrite get_config_assemble. intros H.
  destruct (assemble_cases env Schema.source_order)
    as [[_ Ha] | (pre & f & post & e' & _ & _ & Hf & Ha)]; [congruence|].
  assert (e' = e) as -> by congruence.
  destruct (resolve_error env f e Hf)
    as [(_ & -> & HL) | [(raw & ? & ? & ? & ->) | (raw & ? & ? & ? & ->)]].
  - by left.
  - right. left. by exists (Schema.key f), raw.
  - right. right. by exists (Schema.key f), raw.
Qed.

Lemma get_config_errors_witness :
  get_config Samples.bad_db_bad_timeout = inl (InvalidInteger "REDIS_DB" "1.5") /\
  ((InvalidInteger "REDIS_DB" "1.5" = MissingRequired "LOCK_KEY" /\
    (Samples.bad_db_bad_timeout !! "LOCK_KEY" = None \/
     exists raw, Samples.bad_db_bad_timeout !! "LOCK_KEY" = Some raw /\
                 PyStr.strip raw = "")) \/
   (exists name raw, name ∈ Table.int_names /\
                     Samples.bad_db_bad_timeout !! name = Some raw /\
                     PyInt.int raw = None /\
                     InvalidInteger "REDIS_DB" "1.5" = InvalidInteger name raw) \/
   (exists name raw, name ∈ Table.float_names /\
                     Samples.bad_db_bad_timeout !! name = Some raw /\
                     PyFloat.float raw = None /\
                     InvalidInteger "REDIS_DB" "1.5" = InvalidFloat name raw)).
Proof.
  split; [reflexivity|].
  apply (get_config_errors Samples.bad_db_bad_timeout). reflexivity.
Defined.

(** X6. The exception of [get_config] is that of the first call that
    fails, in the order LOCK_KEY, LOCK_TTL_MS, LOCK_RENEW_EVERY_MS,
    STANDBY_SLEEP_MS, REDIS_PORT, REDIS_DB, REDIS_SOCKET_CONNECT_TIMEOUT,
    REDIS_SOCKET_TIMEOUT of the calls that can fail: [get_config] raises [e]
    exactly when some field raises [e] and all the fields before it in
    [source_order] resolve. So a missing LOCK_KEY hides every malformed
    number, and a malformed integer hides a malformed timeout. *)
Theorem first_failure_reported (env : gmap string string) (e : exn) :
  get_config env = inl e <->
  exists pre f post,
    Schema.source_order = pre ++ f :: post /\
    forallb (fun g => Schema.resolves g env) pre = true /\
    Schema.resolve f env = inl e.
Proof.
  rewrite get_config_assemble. split.
  - intros H.
    destruct (assemble_cases env Schema.source_order)
      as [[_ Ha] | (pre & f & post & e' & Hs & Hpre & Hf & Ha)]; [congruence|].
    assert (e' = e) as -> by congruence. by exists pre, f, post.
  - intros (pre & f & post & -> & Hpre & Hf). by apply assemble_first.
Qed.

Lemma first_failure_reported_witness :
  Schema.resolve Schema.REDIS_DB Samples.bad_db_bad_timeout
  = inl (InvalidInteger "REDIS_DB" "1.5") /\
  Schema.resolve Schema.REDIS_SOCKET_TIMEOUT Samples.bad_db_bad_timeout
  = inl (InvalidFloat "REDIS_SOCKET_TIMEOUT" "soon") /\
  get_config Samples.bad_db_bad_timeout = inl (InvalidInteger "REDIS_DB" "1.5").
Proof.
  split; [reflexivity|]. split; [reflexivity|].
  apply (proj2 (first_failure_reported Samples.bad_db_bad_timeout _)).
  exists (take 6 Schema.source_order), Schema.REDIS_DB, (drop 7 Schema.source_order).
  repeat split; reflexivity.
Defined.

(** X7. [get_config] reads the twelve settings and nothing else: two
    environments that agree on them give the same result, dictionary or
    exception, whatever other variables they hold. *)
Theorem other_variables_ignored (env env' : gmap string string) :
  (forall k, k ∈ Table.names -> env !! k = env' !! k) ->
  get_config env = get_config env'.
Proof.
  intros H. rewrite !get_config_assemble. unfold Schema.assemble, mbind, M_bind.
  rewrite (resolve_in_order_ext env env'); [done|].
  intros f. apply resolve_depends, H, key_in_names.
Qed.

Lemma other_variables_ignored_witness :
  (forall k, k ∈ Table.names -> Samples.svc_a_in_shell !! k = Env.svc_a !! k) /\
  get_config Samples.svc_a_in_shell = get_config Env.svc_a.
Proof.
  assert (H : forall k, k ∈ Table.names ->
                        Samples.svc_a_in_shell !! k = Env.svc_a !! k).
  { intros k Hk. unfold Table.names in Hk.
    repeat (apply elem_of_cons in Hk as [->|Hk]); [..|by apply elem_of_nil in Hk];
      reflexivity. }
  split; [exact H|].
  apply (other_variables_ignored Samples.svc_a_in_shell Env.svc_a H).
Defined.

(** ** Changing one setting *)

Section OneSetting.
Import Schema.

Lemma str_to_bool_present (raw : string) (default : bool) :
  str_to_bool (Some raw) default = bool_decide (PyStr.lower raw ∈ Table.truthy).
Proof.
  unfold str_to_bool, Table.truthy.
  destruct (PyStr.in_tuple _ _) eqn:E; symmetry.
  - apply bool_decide_eq_true. apply list_elem_of_In. by apply in_tuple_spec.
  - apply bool_decide_eq_false. intros H. apply list_elem_of_In, in_tuple_spec in H.
    congruence.
Qed.

Lemma items_lookup_key (env : gmap string string) (g : field) :
  (list_to_map (items_of env source_order) : gmap string value) !! key g
  = Some (value_of g env).
Proof.
  apply elem_of_list_to_map_1.
  - rewrite items_of_keys.
    apply (NoDup_fmap_2 (Inj0 := key_inj) key), source_order_NoDup.
  - unfold items_of.
    apply (list_elem_of_fmap_2 (fun f => (key f, value_of f env))).
    apply all_fields_in_source_order.
Qed.

Lemma items_lookup_other (env : gmap string string) (k : string) :
  k ∉ Table.names ->
  (list_to_map (items_of env source_order) : gmap string value) !! k = None.
Proof.
  intros N. apply not_elem_of_list_to_map_1. rewrite items_of_keys.
  intros H. apply list_elem_of_fmap in H as (f & -> & _).
  apply N, key_in_names.
Qed.

(** When an environment that resolves is changed at one setting, the field
    of that setting is resolved anew and the rest of the dictionary stays. *)
Lemma change_one_setting
    (env env' : gmap string string) (cfg : gmap string value) (f : field) :
  get_config env = inr cfg ->
  (forall g, g <> f -> env' !! key g = env !! key g) ->
  get_config env' =
  match resolve f env' with
  | inr v => inr (<[key f := v]> cfg)
  | inl e => inl e
  end.
Proof.
  intros H Hsame. apply get_config_inr in H as [Hall ->].
  assert (Hres : forall g, g <> f -> resolve g env' = resolve g env).
  { intros g N. by apply resolve_depends, Hsame. }
  rewrite get_config_assemble.
  destruct (resolve f env') as [e|v] eqn:Hf.
  - apply (single_failure env' source_order f e); [|done|].
    + apply all_fields_in_source_order.
    + intros g N. unfold resolves. rewrite (Hres g N).
      apply (all_resolve_elem env source_order g Hall), all_fields_in_source_order.
  - rewrite assemble_ok.
    + f_equal. apply map_eq. intros k.
      destruct (decide (k = key f)) as [->|Nk].
      * rewrite lookup_insert_eq, items_lookup_key. f_equal.
        by apply resolve_value_of.
      * rewrite lookup_insert_ne by done.
        destruct (decide (k ∈ Table.names)) as [Hk|Hk].
        -- apply names_are_keys in Hk as [g ->].
           rewrite !items_lookup_key. f_equal. unfold value_of.
           rewrite Hres; [done|]. by intros ->.
        -- by rewrite !items_lookup_other.
    + apply forallb_forall. intros g _.
      destruct (decide (g = f)) as [->|N].
      * unfold resolves. by rewrite Hf.
      * unfold resolves. rewrite (Hres g N).
        apply (all_resolve_elem env source_order g Hall), all_fields_in_source_order.
Qed.

Lemma insert_same_elsewhere (env : gmap string string) (f : field) (raw : string) :
  forall g, g <> f -> <[key f := raw]> env !! key g = env !! key g.
Proof.
  intros g N. apply lookup_insert_ne. intros E. by apply key_inj in E.
Qed.

Lemma delete_same_elsewhere (env : gmap string string) (f : field) :
  forall g, g <> f -> delete (key f) env !! key g = env !! key g.
Proof.
  intros g N. apply lookup_delete_ne. intros E. by apply key_inj in E.
Qed.

(** A field whose setting is unset resolves to its default. *)
Lemma resolve_unset (env : gmap string string) (f : field) (d : value) :
  env !! key f = None -> Table.default_value f = Some d -> resolve f env = inr d.
Proof.
  intros E D. destruct f; simpl in E, D; simplify_eq;
    unfold resolve, mbind, M_bind, mret, M_ret, getenv;
    rewrite ?get_int_unfold, ?get_float_unfold, E; reflexivity.
Qed.

End OneSetting.

(** X8. In a dictionary returned by [get_config] every setting that is not
    in the environment has the default of its call: None for INSTANCE_ID and
    REDIS_PASSWORD, 15000, 5000 and 2000 for the three lock times, "redis",
    6379 and 0 for host, port and database, 1.0 for the two timeouts and
    True for REDIS_RETRY_ON_TIMEOUT. Removing any setting but LOCK_KEY from
    an environment that resolves gives the same dictionary with that entry at
    its default. *)
Theorem defaults_for_unset (env : gmap string string) (cfg : gmap string value) :
  get_config env = inr cfg ->
  forall f d,
    Table.default_value f = Some d ->
    (env !! Schema.key f = None -> cfg !! Schema.key f = Some d) /\
    get_config (delete (Schema.key f) env) = inr (<[Schema.key f := d]> cfg).
Proof.
  intros H f d D. split.
  - intros E. destruct (value_of_resolved env f cfg H) as (v & Hv & ->).
    rewrite (resolve_unset env f d E D) in Hv. congruence.
  - rewrite (change_one_setting env _ cfg f H (delete_same_elsewhere env f)).
    by rewrite (resolve_unset _ f d (lookup_delete_eq env _) D).
Qed.

Lemma defaults_for_unset_witness :
  exists cfg,
    get_config Samples.full = inr cfg /\
    get_config (delete "REDIS_PORT" Samples.full)
    = inr (<["REDIS_PORT" := VInt 6379]> cfg).
Proof.
  eexists. split; [reflexivity|].
  match goal with
  | |- _ = inr (<[_ := _]> ?c) =>
      apply (defaults_for_unset Samples.full c eq_refl Schema.REDIS_PORT (VInt 6379))
  end.
  reflexivity.
Defined.

(** Rewrites with the instance of [C] at the field [f], its key computed. *)
Ltac rewrite_changed C f raw :=
  let R := fresh "R" in
  pose proof (C f raw) as R; simpl Schema.key in R; rewrite R; clear R.

(** X9. In an environment that resolves, setting one of the integer
    settings to a string that [int] reads changes that one entry of the
    dictionary to the number read, and setting it to any other string makes
    [get_config] raise the ValueError for that name and string; the same for
    the two timeouts with [float]; and replacing LOCK_KEY changes that entry
    to the new value, unless the new value is blank, which raises the
    RuntimeError. Nothing else in the dictionary changes. *)
Theorem set_one_setting (env : gmap string string) (cfg : gmap string value) :
  get_config env = inr cfg ->
  (forall name raw, name ∈ Table.int_names ->
     get_config (<[name := raw]> env) =
     match PyInt.int raw with
     | Some n => inr (<[name := VInt n]> cfg)
     | None => inl (InvalidInteger name raw)
     end) /\
  (forall name raw, name ∈ Table.float_names ->
     get_config (<[name := raw]> env) =
     match PyFloat.float raw with
     | Some x => inr (<[name := VFloat x]> cfg)
     | None => inl (InvalidFloat name raw)
     end) /\
  (forall raw,
     get_config (<["LOCK_KEY" := raw]> env) =
     if PyStr.blank raw then inl (MissingRequired "LOCK_KEY")
     else inr (<["LOCK_KEY" := VStr raw]> cfg)).
Proof.
  intros H.
  assert (C : forall f raw,
             get_config (<[Schema.key f := raw]> env) =
             match Schema.resolve f (<[Schema.key f := raw]> env) with
             | inr v => inr (<[Schema.key f := v]> cfg)
             | inl e => inl e
             end).
  { intros f raw. apply (change_one_setting env _ cfg f H), insert_same_elsewhere. }
  split; [|split].
  - intros name raw Hn. unfold Table.int_names in Hn.
    repeat (apply elem_of_cons in Hn as [->|Hn]); [..|by apply elem_of_nil in Hn].
    + rewrite_changed C Schema.LOCK_TTL_MS raw.
      unfold Schema.resolve, mbind, M_bind, mret, M_ret.
      rewrite get_int_unfold, lookup_insert_eq. by destruct (PyInt.int raw).
    + rewrite_changed C Schema.LOCK_RENEW_EVERY_MS raw.
      unfold Schema.resolve, mbind, M_bind, mret, M_ret.
      rewrite get_int_unfold, lookup_insert_eq. by destruct (PyInt.int raw).
    + rewrite_changed C Schema.STANDBY_SLEEP_MS raw.
      unfold Schema.resolve, mbind, M_bind, mret, M_ret.
      rewrite get_int_unfold, lookup_insert_eq. by destruct (PyInt.int raw).
    + rewrite_changed C Schema.REDIS_PORT raw.
      unfold Schema.resolve, mbind, M_bind, mret, M_ret.
      rewrite get_int_unfold, lookup_insert_eq. by destruct (PyInt.int raw).
    + rewrite_changed C Schema.REDIS_DB raw.
      unfold Schema.resolve, mbind, M_bind, mret, M_ret.
      rewrite get_int_unfold, lookup_insert_eq. by destruct (PyInt.int raw).
  - intros name raw Hn. unfold Table.float_names in Hn.
    repeat (apply elem_of_cons in Hn as [->|Hn]); [..|by apply elem_of_nil in Hn].
    + rewrite_changed C Schema.REDIS_SOCKET_CONNECT_TIMEOUT raw.
      unfold Schema.resolve, mbind, M_bind, mret, M_ret.
      rewrite get_float_unfold, lookup_insert_eq. by destruct (PyFloat.float raw).
    + rewrite_changed C Schema.REDIS_SOCKET_TIMEOUT raw.
      unfold Schema.resolve, mbind, M_bind, mret, M_ret.
      rewrite get_float_unfold, lookup_insert_eq. by destruct (PyFloat.float raw).
  - intros raw. rewrite_changed C Schema.LOCK_KEY raw. rewrite resolve_lock_key.
    rewrite lookup_insert_eq. by destruct (PyStr.blank raw).
Qed.

Lemma set_one_setting_witness :
  exists cfg,
    get_config Env.svc_a = inr cfg /\
    get_config (<["REDIS_DB" := "7"]> Env.svc_a) = inr (<["REDIS_DB" := VInt 7]> cfg) /\
    get_config (<["REDIS_DB" := "seven"]> Env.svc_a)
    = inl (InvalidInteger "REDIS_DB" "seven").
Proof.
  eexists. split; [reflexivity|].
  match goal with
  | |- _ = inr (<[_ := _]> ?c) /\ _ =>
      destruct (set_one_setting Env.svc_a c eq_refl) as (I & _ & _)
  end.
  split.
  - apply (I "REDIS_DB" "7"). compute_done.
  - apply (I "REDIS_DB" "seven"). compute_done.
Defined.

(** X10. REDIS_RETRY_ON_TIMEOUT never makes [get_config] fail. The
    dictionary holds True when the setting is unset, and for a value that is
    set True exactly when its lowercase form is one of the five tokens: every
    other value, the empty string included, gives False. The [default]
    passed to [str_to_bool] plays no part, because [os.getenv] has already
    put "true" in the place of an unset value. *)
Theorem retry_flag (env : gmap string string) (cfg : gmap string value) :
  get_config env = inr cfg ->
  cfg !! "REDIS_RETRY_ON_TIMEOUT"
  = Some (VBool match env !! "REDIS_RETRY_ON_TIMEOUT" with
                | None => true
                | Some raw => bool_decide (PyStr.lower raw ∈ Table.truthy)
                end) /\
  (forall raw,
     get_config (<["REDIS_RETRY_ON_TIMEOUT" := raw]> env)
     = inr (<["REDIS_RETRY_ON_TIMEOUT" :=
               VBool (bool_decide (PyStr.lower raw ∈ Table.truthy))]> cfg)) /\
  (forall (default : bool) (o : option string),
     getenv "REDIS_RETRY_ON_TIMEOUT" (Some "true") env = inr o ->
     str_to_bool o default = str_to_bool o true).
Proof.
  intros H. split; [|split].
  - destruct (value_of_resolved env Schema.REDIS_RETRY_ON_TIMEOUT cfg H)
      as (v & Hv & Hc).
    simpl Schema.key in Hc. rewrite Hc.
    unfold Schema.resolve, mbind, M_bind, mret, M_ret, getenv in Hv.
    injection Hv as <-. do 2 f_equal.
    destruct (env !! "REDIS_RETRY_ON_TIMEOUT") as [raw|].
    + apply str_to_bool_present.
    + reflexivity.
  - intros raw.
    pose proof (change_one_setting env _ cfg Schema.REDIS_RETRY_ON_TIMEOUT H
                  (insert_same_elsewhere env Schema.REDIS_RETRY_ON_TIMEOUT raw)) as R.
    simpl Schema.key in R. rewrite R.
    unfold Schema.resolve, mbind, M_bind, mret, M_ret, getenv.
    rewrite lookup_insert_eq. do 3 f_equal.
    apply str_to_bool_present.
  - intros default o. unfold getenv.
    destruct (env !! "REDIS_RETRY_ON_TIMEOUT"); by intros [= <-].
Qed.

Lemma retry_flag_witness :
  exists cfg,
    get_config Samples.full = inr cfg /\
    cfg !! "REDIS_RETRY_ON_TIMEOUT" = Some (VBool false) /\
    get_config (<["REDIS_RETRY_ON_TIMEOUT" := ""]> Samples.full)
    = inr (<["REDIS_RETRY_ON_TIMEOUT" := VBool false]> cfg).
Proof.
  eexists. split; [reflexivity|].
  match goal with
  | |- ?c !! _ = _ /\ _ =>
      destruct (retry_flag Samples.full c eq_refl) as (L & U & _)
  end.
  split; [exact L|exact (U "")].
Defined.

(** ** Whitespace in the values *)

Section Whitespace.
Import PyCType.

Lemma isspace_lower_char (c : ascii) :
  PyStr.isspace (PyStr.lower_char c) = PyStr.isspace c.
Proof. destruct c as [[] [] [] [] [] [] [] []]; reflexivity. Qed.

Lemma length_lower (s : string) : String.length (PyStr.lower s) = String.length s.
Proof. induction s as [|c r IH]; simpl; [done|by rewrite IH]. Qed.

Lemma has_space_lower (s : string) :
  Table.has_space (PyStr.lower s) = Table.has_space s.
Proof.
  unfold Table.has_space. f_equal.
  induction s as [|c r IH]; simpl; [done|].
  by rewrite isspace_lower_char, IH.
Qed.

Lemma all_app (p : ascii -> bool) (a b : string) :
  PyStr.all p (a +:+ b) = PyStr.all p a && PyStr.all p b.
Proof.
  induction a as [|c r IH]; [done|].
  change (String c r +:+ b) with (String c (r +:+ b)). simpl.
  by rewrite IH, andb_assoc.
Qed.

Lemma space_is_ascii (c : ascii) : ISSPACE c = true -> is_ascii c = true.
Proof. destruct c as [[] [] [] [] [] [] [] []]; (reflexivity || discriminate). Qed.

Lemma space_is_no_digit (c : ascii) :
  ISSPACE c = true -> ISDIGIT c = false /\ Ascii.eqb c "_" = false.
Proof. destruct c as [[] [] [] [] [] [] [] []]; (by split) || discriminate. Qed.

Lemma spaces_are_ascii (s : string) :
  PyStr.all ISSPACE s = true -> PyStr.all is_ascii s = true.
Proof.
  induction s as [|c r IH]; simpl; [done|].
  intros H. apply andb_true_iff in H as [Hc Hr].
  by rewrite (space_is_ascii c Hc), IH.
Qed.

Lemma skip_space_spaces (s : string) :
  PyStr.all ISSPACE s = true -> skip_space s = "".
Proof.
  induction s as [|c r IH]; simpl; [done|].
  intros H. apply andb_true_iff in H as [-> Hr]. by apply IH.
Qed.

Lemma skip_space_app (pre t : string) :
  PyStr.all ISSPACE pre = true -> skip_space (pre +:+ t) = skip_space t.
Proof.
  induction pre as [|c r IH]; [done|].
  change (String c r +:+ t) with (String c (r +:+ t)). simpl.
  intros H. apply andb_true_iff in H as [-> Hr]. by apply IH.
Qed.

Lemma from_string_app (pre t : string) :
  PyStr.all ISSPACE pre = true ->
  PyInt.from_string (pre +:+ t) = PyInt.from_string t.
Proof.
  intros H. unfold PyInt.from_string. by rewrite (skip_space_app pre t H).
Qed.

(** The scan of digits stops at whitespace that follows them. *)
Lemma scan_digits_then_spaces (ds post : string) :
  PyStr.all ISDIGIT ds = true ->
  PyStr.all ISSPACE post = true ->
  forall (acc : N) (n : nat),
    PyInt.scan (ds +:+ post) false (Z.of_N acc) n
    = Some (Z.of_N (decimal_value ds acc), (n + String.length ds)%nat, post).
Proof.
  intros Hd Hp. induction ds as [|c r IH]; intros acc n.
  - change ("" +:+ post) with post. simpl. rewrite Nat.add_0_r.
    destruct post as [|c r]; [done|].
    simpl in Hp. apply andb_true_iff in Hp as [Hc _].
    destruct (space_is_no_digit c Hc) as [D U]. simpl. by rewrite D, U.
  - change (String c r +:+ post) with (String c (r +:+ post)).
    simpl in Hd. apply andb_true_iff in Hd as [Hc Hr]. simpl. rewrite Hc.
    pose proof (digit_value_nonneg c Hc) as Hv.
    replace (10 * Z.of_N acc + digit_value c)%Z
      with (Z.of_N (10 * acc + Z.to_N (digit_value c))) by lia.
    rewrite (IH Hr). do 3 f_equal. lia.
Qed.

Lemma int_of_padded_numeral (pre sign ds post : string) :
  PyStr.all ISSPACE pre = true ->
  PyStr.all ISSPACE post = true ->
  sign ∈ [""; "+"; "-"] ->
  ds <> "" ->
  PyStr.all ISDIGIT ds = true ->
  (String.length ds <= PyInt.max_str_digits)%nat ->
  PyInt.int (pre +:+ sign +:+ ds +:+ post)
  = Some (if String.eqb sign "-" then (- Z.of_N (decimal_value ds 0))%Z
          else Z.of_N (decimal_value ds 0)).
Proof.
  intros Hpre Hpost Hs Hne Hd Hlen.
  unfold PyInt.int, transform_decimal_and_space.
  assert (PyStr.all is_ascii (pre +:+ sign +:+ ds +:+ post) = true) as ->.
  { rewrite !all_app, (spaces_are_ascii pre Hpre), (spaces_are_ascii post Hpost),
      (digits_are_ascii ds Hd).
    repeat (apply elem_of_cons in Hs as [->|Hs]); [..|by apply elem_of_nil in Hs];
      reflexivity. }
  rewrite (from_string_app pre _ Hpre).
  destruct ds as [|c r]; [done|]. clear Hne.
  pose proof Hd as Hd'. simpl in Hd'. apply andb_true_iff in Hd' as [Hc Hr].
  pose proof (scan_digits_then_spaces (String c r) post Hd Hpost 0 0) as Hscan.
  change (String c r +:+ post) with (String c (r +:+ post)) in Hscan.
  change (Z.of_N 0) with 0%Z in Hscan.
  assert (Hlim : (PyInt.max_str_digits <? 0 + String.length (String c r))%nat = false).
  { apply Nat.ltb_ge. simpl in *. lia. }
  repeat (apply elem_of_cons in Hs as [->|Hs]); [..|by apply elem_of_nil in Hs].
  - change ("" +:+ String c r +:+ post) with (String c (r +:+ post)).
    rewrite (from_string_digit c _ Hc), Hscan, Hlim.
    by rewrite (skip_space_spaces post Hpost).
  - change ("+" +:+ String c r +:+ post) with (String "+" (String c (r +:+ post))).
    rewrite (from_string_signed false c _ Hc), Hscan, Hlim.
    by rewrite (skip_space_spaces post Hpost).
  - change ("-" +:+ String c r +:+ post) with (String "-" (String c (r +:+ post))).
    rewrite (from_string_signed true c _ Hc), Hscan, Hlim.
    by rewrite (skip_space_spaces post Hpost).
Qed.

End Whitespace.

(** X11. [str_to_bool] does not trim its input: a value that holds a
    whitespace character anywhere, such as a truthy token followed by a
    space, or that is longer than four characters, is False, whatever the
    default. *)
Theorem str_to_bool_no_trim (s : string) (default : bool) :
  Table.has_space s = true \/ (4 < String.length s)%nat ->
  str_to_bool (Some s) default = false.
Proof.
  intros H. rewrite str_to_bool_present. apply bool_decide_eq_false.
  intros Hin. unfold Table.truthy in Hin.
  assert (Table.has_space (PyStr.lower s) = false /\
          (String.length (PyStr.lower s) <= 4)%nat) as [Hsp Hlen].
  { repeat (apply elem_of_cons in Hin as [->|Hin]); [..|by apply elem_of_nil in Hin];
      (split; [reflexivity|simpl; lia]). }
  rewrite has_space_lower in Hsp. rewrite length_lower in Hlen.
  destruct H as [H|H]; [congruence|lia].
Qed.

Lemma str_to_bool_no_trim_witness :
  Table.has_space "true " = true /\
  str_to_bool (Some "true ") true = false.
Proof.
  split; [reflexivity|].
  apply (str_to_bool_no_trim "true " true). left. reflexivity.
Defined.

(** X12. [get_int] accepts a decimal numeral with whitespace around it: for
    a setting whose value is tabs, line feeds or spaces, then an optional
    sign and at most 4300 digits, then again such whitespace, it returns the
    number the digits denote, negated after a minus sign. The value needs no
    trimming, unlike the value of REDIS_RETRY_ON_TIMEOUT. *)
Theorem get_int_padded
    (env : gmap string string) (name : string) (default : Z)
    (pre sign ds post : string) :
  env !! name = Some (pre +:+ sign +:+ ds +:+ post) ->
  PyStr.all PyCType.ISSPACE pre = true ->
  PyStr.all PyCType.ISSPACE post = true ->
  sign ∈ [""; "+"; "-"] ->
  ds <> "" ->
  PyStr.all PyCType.ISDIGIT ds = true ->
  (String.length ds <= PyInt.max_str_digits)%nat ->
  get_int name default env
  = inr (if String.eqb sign "-" then (- Z.of_N (PyCType.decimal_value ds 0))%Z
         else Z.of_N (PyCType.decimal_value ds 0)).
Proof.
  intros E Hpre Hpost Hs Hne Hd Hlen.
  rewrite get_int_unfold, E.
  by rewrite (int_of_padded_numeral pre sign ds post Hpre Hpost Hs Hne Hd Hlen).
Qed.

Lemma get_int_padded_witness :
  Samples.full !! "REDIS_PORT" = Some (" " +:+ "" +:+ "6380" +:+ " ") /\
  get_int "REDIS_PORT" 6379 Samples.full = inr 6380%Z.
Proof.
  split; [reflexivity|].
  apply (get_int_padded Samples.full "REDIS_PORT" 6379 " " "" "6380" " ").
  - reflexivity.
  - reflexivity.
  - reflexivity.
  - compute_done.
  - discriminate.
  - reflexivity.
  - unfold PyInt.max_str_digits. simpl. lia.
Defined.

(** ** Blank and non-finite numbers *)

Section BlankNumbers.
Import PyCType.

(** The whitespace that survives [transform_decimal_and_space]. *)
Let low_space (c : ascii) : bool := PyStr.isspace c && is_ascii c.

Lemma transform_loop_blank (s : string) :
  PyStr.blank s = true -> PyStr.all low_space (transform_loop s) = true.
Proof.
  unfold PyStr.blank. induction s as [|c r IH]; simpl; [done|].
  intros H. apply andb_true_iff in H as [Hc Hr]. specialize (IH Hr).
  destruct (PyStr.ord c <? 127)%N eqn:L; simpl.
  - rewrite IH, andb_true_r. unfold low_space. rewrite Hc. simpl.
    unfold is_ascii. apply N.ltb_lt in L. apply N.ltb_lt. lia.
  - rewrite Hc. simpl. by rewrite IH.
Qed.

Lemma transform_blank (s : string) :
  PyStr.blank s = true ->
  PyStr.all low_space (transform_decimal_and_space s) = true.
Proof.
  intros H. unfold transform_decimal_and_space.
  destruct (PyStr.all is_ascii s) eqn:A; [|by apply transform_loop_blank].
  unfold PyStr.blank in H. clear -H A.
  induction s as [|c r IH]; simpl in *; [done|].
  apply andb_true_iff in H as [Hc Hr]. apply andb_true_iff in A as [Ac Ar].
  unfold low_space at 1. by rewrite Hc, Ac, IH.
Qed.

Lemma skip_space_low (s : string) :
  PyStr.all low_space s = true ->
  skip_space s = "" \/
  exists c r, skip_space s = String c r /\ low_space c = true /\ ISSPACE c = false.
Proof.
  induction s as [|c r IH]; simpl; [by left|].
  intros H. apply andb_true_iff in H as [Hc Hr].
  destruct (ISSPACE c) eqn:S; [by apply IH|].
  right. by exists c, r.
Qed.

Lemma skip_space_idemp (s : string) : skip_space (skip_space s) = skip_space s.
Proof.
  induction s as [|c r IH]; simpl; [done|].
  destruct (ISSPACE c) eqn:S; [done|]. simpl. by rewrite S.
Qed.

Lemma from_string_low_space (s : string) :
  PyStr.all low_space s = true -> PyInt.from_string s = None.
Proof.
  intros H.
  assert (E : PyInt.from_string s = PyInt.from_string (skip_space s)).
  { unfold PyInt.from_string. by rewrite skip_space_idemp. }
  rewrite E.
  destruct (skip_space_low s H) as [-> | (c & r & -> & L & S)]; [reflexivity|].
  destruct c as [[] [] [] [] [] [] [] []];
    try discriminate L; try discriminate S; reflexivity.
Qed.

Lemma strip_underscores_low (s : string) (prev : ascii) :
  PyStr.all low_space s = true -> Ascii.eqb prev "_" = false ->
  PyFloat.strip_underscores s prev = Some s.
Proof.
  revert prev. induction s as [|c r IH]; simpl; intros prev H P.
  - by rewrite P.
  - apply andb_true_iff in H as [Hc Hr].
    assert (U : Ascii.eqb c "_" = false).
    { destruct c as [[] [] [] [] [] [] [] []]; try discriminate Hc; reflexivity. }
    rewrite U, P. simpl. by rewrite (IH c Hr U).
Qed.

Lemma from_string_inner_low_space (s : string) :
  PyStr.all low_space s = true -> PyFloat.from_string_inner s = None.
Proof.
  intros H. unfold PyFloat.from_string_inner.
  destruct (skip_space_low s H) as [-> | (c & r & -> & L & S)]; [reflexivity|].
  destruct c as [[] [] [] [] [] [] [] []];
    try discriminate L; try discriminate S; reflexivity.
Qed.

Lemma int_of_blank (s : string) : PyStr.blank s = true -> PyInt.int s = None.
Proof.
  intros H. unfold PyInt.int. by apply from_string_low_space, transform_blank.
Qed.

Lemma float_of_blank (s : string) : PyStr.blank s = true -> PyFloat.float s = None.
Proof.
  intros H. unfold PyFloat.float.
  pose proof (transform_blank s H) as L.
  rewrite (strip_underscores_low _ "000"%char L eq_refl).
  by apply from_string_inner_low_space.
Qed.

(** The characters that [str.lower] sends to a small letter. *)
Lemma lower_char_letter (c x : ascii) :
  PyStr.lower_char c = x ->
  ((97 <=? PyStr.ord x) && (PyStr.ord x <=? 122))%N = true ->
  c = x \/ c = ascii_of_N (PyStr.ord x - 32).
Proof.
  intros <- R.
  destruct c as [[] [] [] [] [] [] [] []];
    try discriminate R; (by left) || (by right).
Qed.

Lemma float_of_inf (sign s : string) :
  sign ∈ [""; "+"; "-"] ->
  PyStr.lower s = "inf" ->
  PyFloat.float (sign +:+ s) = Some (S754_infinity (String.eqb sign "-")).
Proof.
  intros Hs H.
  destruct s as [|c1 [|c2 [|c3 [|]]]]; try discriminate H.
  simpl in H. injection H as H1 H2 H3.
  destruct (lower_char_letter c1 "i" H1 eq_refl) as [-> | ->];
  destruct (lower_char_letter c2 "n" H2 eq_refl) as [-> | ->];
  destruct (lower_char_letter c3 "f" H3 eq_refl) as [-> | ->];
  repeat (apply elem_of_cons in Hs as [->|Hs]); try (by apply elem_of_nil in Hs);
  reflexivity.
Qed.

Lemma float_of_nan (sign s : string) :
  sign ∈ [""; "+"; "-"] ->
  PyStr.lower s = "nan" ->
  PyFloat.float (sign +:+ s) = Some S754_nan.
Proof.
  intros Hs H.
  destruct s as [|c1 [|c2 [|c3 [|]]]]; try discriminate H.
  simpl in H. injection H as H1 H2 H3.
  destruct (lower_char_letter c1 "n" H1 eq_refl) as [-> | ->];
  destruct (lower_char_letter c2 "a" H2 eq_refl) as [-> | ->];
  destruct (lower_char_letter c3 "n" H3 eq_refl) as [-> | ->];
  repeat (apply elem_of_cons in Hs as [->|Hs]); try (by apply elem_of_nil in Hs);
  reflexivity.
Qed.

Lemma float_of_infinity (sign s : string) :
  sign ∈ [""; "+"; "-"] ->
  PyStr.lower s = "infinity" ->
  PyFloat.float (sign +:+ s) = Some (S754_infinity (String.eqb sign "-")).
Proof.
  intros Hs H.
  destruct s as [|c1 [|c2 [|c3 [|c4 [|c5 [|c6 [|c7 [|c8 [|]]]]]]]]];
    try discriminate H.
  simpl in H. injection H as H1 H2 H3 H4 H5 H6 H7 H8.
  destruct (lower_char_letter c1 "i" H1 eq_refl) as [-> | ->];
  destruct (lower_char_letter c2 "n" H2 eq_refl) as [-> | ->];
  destruct (lower_char_letter c3 "f" H3 eq_refl) as [-> | ->];
  destruct (lower_char_letter c4 "i" H4 eq_refl) as [-> | ->];
  destruct (lower_char_letter c5 "n" H5 eq_refl) as [-> | ->];
  destruct (lower_char_letter c6 "i" H6 eq_refl) as [-> | ->];
  destruct (lower_char_letter c7 "t" H7 eq_refl) as [-> | ->];
  destruct (lower_char_letter c8 "y" H8 eq_refl) as [-> | ->];
  repeat (apply elem_of_cons in Hs as [->|Hs]); try (by apply elem_of_nil in Hs);
  reflexivity.
Qed.

End BlankNumbers.

(** X13. A number setting that is set to a blank value, the empty string or
    whitespace only, is malformed and not unset: [get_int] and [get_float]
    raise their ValueError for it and never fall back to the default. What
    [get_required] rejects as blank, the number coercers reject too. *)
Theorem blank_number_is_invalid (env : gmap string string) (name raw : string) :
  env !! name = Some raw ->
  PyStr.blank raw = true ->
  (forall default : Z, get_int name default env = inl (InvalidInteger name raw)) /\
  (forall default : spec_float,
     get_float name default env = inl (InvalidFloat name raw)).
Proof.
  intros E B. split; intros default.
  - by rewrite get_int_unfold, E, (int_of_blank raw B).
  - by rewrite get_float_unfold, E, (float_of_blank raw B).
Qed.

Lemma blank_number_is_invalid_witness :
  (<["REDIS_PORT" := "   "]> Env.svc_a) !! "REDIS_PORT" = Some "   " /\
  PyStr.blank "   " = true /\
  get_int "REDIS_PORT" 6379 (<["REDIS_PORT" := "   "]> Env.svc_a)
  = inl (InvalidInteger "REDIS_PORT" "   ").
Proof.
  split; [reflexivity|]. split; [reflexivity|].
  apply (blank_number_is_invalid (<["REDIS_PORT" := "   "]> Env.svc_a) "REDIS_PORT" "   ");
    reflexivity.
Defined.

(** X14. [get_float] checks no range: a timeout written inf, infinity or
    nan, in any mix of upper and lower case and with an optional sign, is
    read, as the infinity of that sign or as not-a-number, and returned as
    the value of the setting. *)
Theorem get_float_non_finite
    (env : gmap string string) (name : string) (default : spec_float)
    (sign s : string) :
  env !! name = Some (sign +:+ s) ->
  sign ∈ [""; "+"; "-"] ->
  (PyStr.lower s ∈ ["inf"; "infinity"] ->
   get_float name default env = inr (S754_infinity (String.eqb sign "-"))) /\
  (PyStr.lower s = "nan" -> get_float name default env = inr S754_nan).
Proof.
  intros E Hs. rewrite get_float_unfold, E. split.
  - intros H. repeat (apply elem_of_cons in H as [H|H]); [..|by apply elem_of_nil in H].
    + by rewrite (float_of_inf sign s Hs H).
    + by rewrite (float_of_infinity sign s Hs H).
  - intros H. by rewrite (float_of_nan sign s Hs H).
Qed.

Lemma get_float_non_finite_witness :
  (<["REDIS_SOCKET_TIMEOUT" := "-Inf"]> Env.svc_a) !! "REDIS_SOCKET_TIMEOUT"
  = Some ("-" +:+ "Inf") /\
  get_float "REDIS_SOCKET_TIMEOUT" float_1_0
    (<["REDIS_SOCKET_TIMEOUT" := "-Inf"]> Env.svc_a)
  = inr (S754_infinity true).
Proof.
  split; [reflexivity|].
  destruct (get_float_non_finite (<["REDIS_SOCKET_TIMEOUT" := "-Inf"]> Env.svc_a)
              "REDIS_SOCKET_TIMEOUT" float_1_0 "-" "Inf") as [Hinf _].
  - reflexivity.
  - compute_done.
  - apply Hinf. compute_done.
Defined.
